(** * Pixel-walls backend (backend/server.py): a shallow embedding

    The development follows [backend/server.py]: the prompt classifier
    [generate_image_mcp], the wallpaper handler [generate_wallpaper], the
    history listing [get_wallpaper_history] and the agent proxy
    [chat_with_agent].

    Conventions.
    - A Python [str] is a sequence of Unicode code points, here [list N]
      (lone surrogates included, as in Python).
    - [bytes] are [list N] with every element below 256.
    - Dictionaries whose keys are field names are [gmap string _].
    - Exceptions are values of [exn]; code that may raise returns [Result].
    - Collaborators outside the repository (the Unicode database behind
      [str.lower], the clock, [uuid4], the document store, the agent
      library) are inputs of the functions that use them. *)

From Stdlib Require Import NArith Ascii String.
From stdpp Require Import gmap strings list fin_maps sorting.

Local Open Scope N_scope.

(** ** Python strings *)

Abbreviation str := (list N).

(** An ASCII literal of the source, as code points. *)
Fixpoint pystr (s : string) : str :=
  match s with
  | EmptyString => []
  | String a r => N_of_ascii a :: pystr r
  end.

Arguments pystr : simpl never.

Definition is_ascii (c : N) : bool := c <? 128.

(** [ascii_lower]: 'A'..'Z' to 'a'..'z', every other code unit unchanged. *)
Definition ascii_lower (c : N) : N :=
  if (65 <=? c) && (c <=? 90) then c + 32 else c.

(** [a == b] on strings. *)
Definition str_eqb (a b : str) : bool := bool_decide (a = b).

(** [s.startswith(p)]. *)
Fixpoint starts_with (p s : str) : bool :=
  match p, s with
  | [], _ => true
  | _ :: _, [] => false
  | x :: p', y :: s' => (x =? y) && starts_with p' s'
  end.

(** [needle in hay] for strings: [needle] occurs as a contiguous run. *)
Fixpoint str_in (needle hay : str) : bool :=
  starts_with needle hay ||
  match hay with
  | [] => false
  | _ :: hay' => str_in needle hay'
  end.

(** The specification of [in]: an occurrence with a prefix and a suffix. *)
Definition occurs_in (needle hay : str) : Prop :=
  ∃ pre post, hay = pre ++ needle ++ post.

(** ** Exceptions and results

    [exn] stands for the instances of [Exception], which is what the
    handlers catch: [HTTPException] of the web framework, the built-in
    exceptions the modelled code can raise, and [Fault text] for any
    exception raised by a collaborator, with [text] its [str()]. *)

Inductive exn : Type :=
  | HTTPException (status_code : N) (detail : str)
  | UnicodeEncodeError (object : str) (position : nat)
  | ValueError (literal : str)
  | IndexError
  | ZeroDivisionError
  | KeyError (key : string)
  | Fault (text : str).

Inductive Result (A : Type) : Type :=
  | Ok (a : A)
  | Raise (e : exn).
Arguments Ok {A} a.
Arguments Raise {A} e.

Global Instance Result_ret : MRet Result := fun _ a => Ok a.
Global Instance Result_bind : MBind Result := fun _ _ k m =>
  match m with
  | Ok a => k a
  | Raise e => Raise e
  end.

(** [try: m  except Exception as e: h e] *)
Definition try_except {A} (m : Result A) (h : exn → A) : A :=
  match m with
  | Ok a => a
  | Raise e => h e
  end.

(** ** UTF-8, the default of [str.encode] *)

Module Utf8.

Definition is_surrogate (c : N) : bool := (0xD800 <=? c) && (c <=? 0xDFFF).

Definition encode_char (c : N) : list N :=
  if c <? 0x80 then [c]
  else if c <? 0x800 then
    [N.lor 0xC0 (N.shiftr c 6); N.lor 0x80 (N.land c 0x3F)]
  else if c <? 0x10000 then
    [N.lor 0xE0 (N.shiftr c 12);
     N.lor 0x80 (N.land (N.shiftr c 6) 0x3F);
     N.lor 0x80 (N.land c 0x3F)]
  else
    [N.lor 0xF0 (N.shiftr c 18);
     N.lor 0x80 (N.land (N.shiftr c 12) 0x3F);
     N.lor 0x80 (N.land (N.shiftr c 6) 0x3F);
     N.lor 0x80 (N.land c 0x3F)].

(** [encode_from pos s whole]: strict UTF-8; a surrogate raises
    [UnicodeEncodeError] carrying the whole string and the position. *)
Fixpoint encode_from (pos : nat) (s whole : str) : Result (list N) :=
  match s with
  | [] => Ok []
  | c :: s' =>
      if is_surrogate c then Raise (UnicodeEncodeError whole pos)
      else
        tl ← encode_from (S pos) s' whole;
        Ok (encode_char c ++ tl)
  end.

Definition encode (s : str) : Result (list N) := encode_from 0 s s.

End Utf8.

(** ** MD5 (RFC 1321), as computed by [hashlib.md5] *)

Module Md5.

Definition mask32 : N := 0xFFFFFFFF.
Definition add32 (a b : N) : N := (a + b) mod 2 ^ 32.
Definition not32 (a : N) : N := N.lxor a mask32.
Definition rotl32 (x s : N) : N :=
  N.lor (N.shiftl x s mod 2 ^ 32) (N.shiftr x (32 - s)).

Definition K : list N :=
  [ 0xd76aa478; 0xe8c7b756; 0x242070db; 0xc1bdceee;
    0xf57c0faf; 0x4787c62a; 0xa8304613; 0xfd469501;
    0x698098d8; 0x8b44f7af; 0xffff5bb1; 0x895cd7be;
    0x6b901122; 0xfd987193; 0xa679438e; 0x49b40821;
    0xf61e2562; 0xc040b340; 0x265e5a51; 0xe9b6c7aa;
    0xd62f105d; 0x02441453; 0xd8a1e681; 0xe7d3fbc8;
    0x21e1cde6; 0xc33707d6; 0xf4d50d87; 0x455a14ed;
    0xa9e3e905; 0xfcefa3f8; 0x676f02d9; 0x8d2a4c8a;
    0xfffa3942; 0x8771f681; 0x6d9d6122; 0xfde5380c;
    0xa4beea44; 0x4bdecfa9; 0xf6bb4b60; 0xbebfbc70;
    0x289b7ec6; 0xeaa127fa; 0xd4ef3085; 0x04881d05;
    0xd9d4d039; 0xe6db99e5; 0x1fa27cf8; 0xc4ac5665;
    0xf4292244; 0x432aff97; 0xab9423a7; 0xfc93a039;
    0x655b59c3; 0x8f0ccc92; 0xffeff47d; 0x85845dd1;
    0x6fa87e4f; 0xfe2ce6e0; 0xa3014314; 0x4e0811a1;
    0xf7537e82; 0xbd3af235; 0x2ad7d2bb; 0xeb86d391 ].

Definition S_ : list N :=
  [ 7; 12; 17; 22; 7; 12; 17; 22; 7; 12; 17; 22; 7; 12; 17; 22;
    5; 9; 14; 20; 5; 9; 14; 20; 5; 9; 14; 20; 5; 9; 14; 20;
    4; 11; 16; 23; 4; 11; 16; 23; 4; 11; 16; 23; 4; 11; 16; 23;
    6; 10; 15; 21; 6; 10; 15; 21; 6; 10; 15; 21; 6; 10; 15; 21 ].

Record state := State { sa : N; sb : N; sc : N; sd : N }.

Definition init : state :=
  State 0x67452301 0xefcdab89 0x98badcfe 0x10325476.

(** Little-endian 32-bit word [j] of a 64-byte block. *)
Definition word_at (block : list N) (j : nat) : N :=
  let b i := nth (4 * j + i)%nat block 0 in
  b 0%nat + N.shiftl (b 1%nat) 8 + N.shiftl (b 2%nat) 16
  + N.shiftl (b 3%nat) 24.

Definition round (block : list N) (i : nat) (st : state) : state :=
  let '(State a b c d) := st in
  let '(f, g) :=
    if (i <? 16)%nat then
      (N.lor (N.land b c) (N.land (not32 b) d), i)
    else if (i <? 32)%nat then
      (N.lor (N.land d b) (N.land (not32 d) c), ((5 * i + 1) mod 16)%nat)
    else if (i <? 48)%nat then
      (N.lxor (N.lxor b c) d, ((3 * i + 5) mod 16)%nat)
    else
      (N.lxor c (N.lor b (not32 d)), ((7 * i) mod 16)%nat) in
  let f' := add32 (add32 (add32 f a) (nth i K 0)) (word_at block g) in
  State d (add32 b (rotl32 f' (nth i S_ 0))) b c.

Definition compress (st : state) (block : list N) : state :=
  let st' := foldl (fun s i => round block i s) st (seq 0 64) in
  State (add32 (sa st) (sa st')) (add32 (sb st) (sb st'))
        (add32 (sc st) (sc st')) (add32 (sd st) (sd st')).

Definition le_bytes (n : nat) (w : N) : list N :=
  map (fun i => N.shiftr w (8 * N.of_nat i) mod 256) (seq 0 n).

(** Padding: 0x80, zeros up to 56 modulo 64, the bit length on 8 bytes. *)
Definition pad (msg : list N) : list N :=
  let len := length msg in
  let zeros := ((119 - len mod 64) mod 64)%nat in
  msg ++ [0x80] ++ replicate zeros 0
      ++ le_bytes 8 ((8 * N.of_nat len) mod 2 ^ 64).

Fixpoint blocks (n : nat) (data : list N) (st : state) : state :=
  match n with
  | O => st
  | S n' => blocks n' (drop 64 data) (compress st (take 64 data))
  end.

Definition digest_of (st : state) : list N :=
  le_bytes 4 (sa st) ++ le_bytes 4 (sb st)
  ++ le_bytes 4 (sc st) ++ le_bytes 4 (sd st).

(** [hashlib.md5(data).digest()] *)
Definition md5 (msg : list N) : list N :=
  let data := pad msg in
  digest_of (blocks (length data / 64) data init).

End Md5.

Arguments Md5.md5 : simpl never.

(** ** [hexdigest] and [int(_, 16)] *)

Definition hex_digit (n : N) : N :=
  if n <? 10 then 48 + n else 87 + n.

(** [bytes.hex()] *)
Definition hexlify (bs : list N) : str :=
  flat_map (fun b => [hex_digit (b / 16); hex_digit (b mod 16)]) bs.

Definition hex_value (c : N) : option N :=
  if (48 <=? c) && (c <=? 57) then Some (c - 48)
  else if (97 <=? c) && (c <=? 102) then Some (c - 87)
  else if (65 <=? c) && (c <=? 70) then Some (c - 55)
  else None.

Fixpoint int16_from (acc : N) (s : str) : option N :=
  match s with
  | [] => Some acc
  | c :: s' =>
      match hex_value c with
      | Some v => int16_from (16 * acc + v) s'
      | None => None
      end
  end.

(** [int(s, 16)] on a string of hexadecimal digits; anything else raises
    [ValueError] (signs, prefixes, blanks and underscores do not occur in a
    hexdigest). *)
Definition int16 (s : str) : Result N :=
  match s with
  | [] => Raise (ValueError s)
  | _ =>
      match int16_from 0 s with
      | Some n => Ok n
      | None => Raise (ValueError s)
      end
  end.

Definition hexdigest (data : list N) : str := hexlify (Md5.md5 data).

Arguments hexdigest : simpl never.


(** ** A reference runtime

    The functions below stand for the parts of the Python runtime the model
    takes as inputs, restricted to what ASCII text needs; they are used to
    run the model on concrete requests. *)

(** [_PyUnicode_ToLowerFull] on ASCII, identity elsewhere. *)
Definition ascii_to_lower_full (c : N) : list N := [ascii_lower c].

(** No capital sigma is in final position. *)
Definition never_final_sigma (s : str) (i : nat) : bool := false.

(** A rendering of the exceptions the runtime and the web framework build. *)
Definition plain_runtime_text (e : exn) : str :=
  match e with
  | HTTPException _ detail => detail
  | UnicodeEncodeError _ _ => pystr "surrogates not allowed"
  | ValueError _ => pystr "invalid literal for int()"
  | IndexError => pystr "list index out of range"
  | ZeroDivisionError => pystr "integer modulo by zero"
  | KeyError key => pystr key
  | Fault text => text
  end.

(** ** The static image table of [generate_image_mcp]

    A Python dict literal keeps its declaration order, so the table is an
    ordered list of (keyword, URL) pairs. *)

Definition sample_images : list (str * str) :=
  [ (pystr "sunset", pystr "https://images.unsplash.com/photo-1506905925346-21bda4d32df4?w=400&h=711&fit=crop&crop=center");
    (pystr "mountains", pystr "https://images.unsplash.com/photo-1464822759844-d150bb1e7ead?w=400&h=711&fit=crop&crop=center");
    (pystr "abstract", pystr "https://images.unsplash.com/photo-1558618666-fcd25d1cd2f6?w=400&h=711&fit=crop&crop=center");
    (pystr "geometric", pystr "https://images.unsplash.com/photo-1520637836862-4d197d17c13a?w=400&h=711&fit=crop&crop=center");
    (pystr "nature", pystr "https://images.unsplash.com/photo-1441974231531-c6227db76b6e?w=400&h=711&fit=crop&crop=center");
    (pystr "minimal", pystr "https://images.unsplash.com/photo-1553356084-58ef4a67b2a7?w=400&h=711&fit=crop&crop=center");
    (pystr "gradient", pystr "https://images.unsplash.com/photo-1509114397022-ed747cca3f65?w=400&h=711&fit=crop&crop=center");
    (pystr "neon", pystr "https://images.unsplash.com/photo-1518709268805-4e9042af2176?w=400&h=711&fit=crop&crop=center");
    (pystr "artistic", pystr "https://images.unsplash.com/photo-1549490349-8643362247b5?w=400&h=711&fit=crop&crop=center");
    (pystr "space", pystr "https://images.unsplash.com/photo-1446776877081-d282a0f896e2?w=400&h=711&fit=crop&crop=center") ].

Definition default_image : str :=
  pystr "https://images.unsplash.com/photo-1542831371-29b0f74f9713?w=400&h=711&fit=crop&crop=center".

(** [list(sample_images.values())] *)
Definition image_list : list str := sample_images.*2.

(** [sample_images.keys()] *)
Definition keywords : list str := sample_images.*1.

Arguments sample_images : simpl never.
Arguments default_image : simpl never.
Arguments image_list : simpl never.
Arguments keywords : simpl never.

(** The result dict of [generate_image_mcp]; a key that is absent is [None]. *)
Record image_result := ImageResult {
  ir_success : bool;
  ir_url : option str;
  ir_metadata : option (gmap string str);
  ir_error : option str
}.

(** [l[i]] for a non-negative index. *)
Definition py_index {A} (l : list A) (i : N) : Result A :=
  match l !! N.to_nat i with
  | Some x => Ok x
  | None => Raise IndexError
  end.

(** [a % b] for non-negative integers. *)
Definition py_mod (a b : N) : Result N :=
  if b =? 0 then Raise ZeroDivisionError else Ok (a mod b).

(** The [for ... in sample_images.items()] loop with its [break]:
    [selected] is the value of [selected_image] when the loop is entered. *)
Fixpoint scan_keywords (table : list (str * str)) (prompt_lower selected : str)
  : str :=
  match table with
  | [] => selected
  | (keyword, image_url) :: rest =>
      if str_in keyword prompt_lower then image_url
      else scan_keywords rest prompt_lower selected
  end.

(** ** Documents of the store *)

Inductive value : Type :=
  | VStr (s : str)
  | VDatetime (t : N)
  | VObjectId (oid : N)
  | VDict (d : gmap string str).

Abbreviation doc := (gmap string value).

(** ** Request and response models *)

Record WallpaperRequest := {
  req_prompt : str;
  req_style : str;
  req_aspect_ratio : str;
  req_quality : str
}.

Record WallpaperResponse := {
  resp_success : bool;
  resp_wallpaper_url : str;
  resp_prompt : str;
  resp_style : str;
  resp_aspect_ratio : str;
  resp_metadata : gmap string str;
  resp_error : option str
}.

(** One call of the classifier, as the handler made it. *)
Record classifier_call := {
  cc_prompt : str;
  cc_aspect_ratio : str;
  cc_quality : str;
  cc_output_format : str
}.

(** The [wallpapers] collection, in insertion order, and the calls made to
    the classifier so far (a ghost trace; the source keeps no such log). *)
Record world := World {
  wallpapers : list doc;
  classifier_calls : list classifier_call
}.

(** What one run of [generate_wallpaper] reads from its collaborators:
    the clock during the classifier call (already in ISO-8601 form),
    [uuid.uuid4()], the clock of the handler, and the outcome of
    [insert_one]: the new storage identifier, or the exception it raises.
    An [insert_one] that raises leaves the collection as it was. *)
Record gen_env := {
  env_generation_time : str;
  env_uuid4 : str;
  env_utcnow : N;
  env_insert_one : Result N
}.

(** The dict returned by [get_wallpaper_history]; the failure dict has no
    ["count"], the success dict no ["error"]. *)
Record history_response := {
  hist_success : bool;
  hist_wallpapers : list doc;
  hist_count : option nat;
  hist_error : option str
}.

(** The agent library: agents are objects, known by their identity. *)
Record AgentResponse := {
  ar_success : bool;
  ar_content : str;
  ar_metadata : gmap string str;
  ar_error : option str
}.

(** What one request reads from the agent library: the outcome of each
    constructor, of [execute] and of [get_capabilities]. *)
Record engine := {
  SearchAgent : Result N;
  ChatAgent : Result N;
  execute : N → str → Result AgentResponse;
  get_capabilities : N → Result (list str)
}.

(** The module-level globals [search_agent] and [chat_agent]. *)
Record agents := Agents {
  search_agent : option N;
  chat_agent : option N
}.

(** [ChatRequest]; its [context] field is never read. *)
Record ChatRequest := {
  chat_message : str;
  chat_agent_type : str
}.

Record ChatResponse := {
  cresp_success : bool;
  cresp_response : str;
  cresp_agent_type : str;
  cresp_capabilities : list str;
  cresp_metadata : gmap string str;
  cresp_error : option str
}.

(** What the web framework answers for a route function: its value with
    status 200, the status of an [HTTPException] it lets escape, and 500
    for any other exception. *)
Inductive http (A : Type) : Type :=
  | Http200 (body : A)
  | HttpError (status : N) (detail : str).
Arguments Http200 {A} body.
Arguments HttpError {A} status detail.

Definition fastapi_route {A} (r : Result A) : http A :=
  match r with
  | Ok body => Http200 body
  | Raise (HTTPException status detail) => HttpError status detail
  | Raise _ => HttpError 500 (pystr "Internal Server Error")
  end.

(** [d[key]] on a dict with an optional key. *)
Definition dict_get {A} (key : string) (field : option A) : Result A :=
  match field with
  | Some x => Ok x
  | None => Raise (KeyError key)
  end.

(** ** The ordered query of the history listing

    [find().sort("timestamp", -1).limit(50)]: documents by descending
    timestamp. A document without a datetime timestamp compares below every
    datetime, as a missing field does in the store. The store promises no
    order among equal keys; the model sorts with a merge sort, and no
    property below depends on how it places equal keys. *)

Definition sort_key (d : doc) : N :=
  match d !! "timestamp" with
  | Some (VDatetime t) => t + 1
  | _ => 0
  end.

(** [newer_or_equal a b]: [a] may come before [b] in descending order. *)
Definition newer_or_equal (a b : doc) : Prop := sort_key b ≤ sort_key a.

Global Instance newer_or_equal_dec a b : Decision (newer_or_equal a b).
Proof. unfold newer_or_equal. apply _. Defined.

Definition find_sorted_limit (coll : list doc) : list doc :=
  take 50 (merge_sort newer_or_equal coll).

(** ** Small sigmas

    The two lower-case forms of capital sigma; which one [str.lower] picks
    depends on the context, so two lower-casings of the same text may differ
    there and only there. *)

Definition is_small_sigma (c : N) : bool := (c =? 0x3C2) || (c =? 0x3C3).

Definition sigma_eq (a b : N) : Prop :=
  a = b ∨ (is_small_sigma a = true ∧ is_small_sigma b = true).

(** What the proofs need of a keyword: lower-case ASCII, so without a small
    sigma; no comma, no blank, not empty; and no occurrence in the fixed
    text of the enhanced prompt. *)
Definition keyword_safe (keyword : str) : bool :=
  forallb is_ascii keyword
  && bool_decide (map ascii_lower keyword = keyword)
  && forallb (λ c, negb (is_small_sigma c)) keyword
  && negb (bool_decide (44 ∈ keyword))
  && negb (bool_decide (32 ∈ keyword))
  && negb (str_in keyword [])
  && negb (str_in keyword (pystr "style, phone wallpaper,"))
  && negb (str_in keyword
             (pystr "aspect ratio, high quality, detailed, vibrant colors")).

(** [no_keyword_in text]: the scan finds nothing in [text]. *)
Definition no_keyword_in (text : str) : bool :=
  forallb (λ keyword, negb (str_in keyword text)) keywords.

(** ** Sample requests and collaborators *)

Definition request_of (prompt style aspect_ratio quality : string)
  : WallpaperRequest :=
  {| req_prompt := pystr prompt; req_style := pystr style;
     req_aspect_ratio := pystr aspect_ratio; req_quality := pystr quality |}.

(** A run in which the store accepts the record. *)
Definition env_at (now oid : N) : gen_env :=
  {| env_generation_time := pystr "2025-01-01T00:00:00";
     env_uuid4 := pystr "3b241101-e2bb-4255-8caf-4136c566a962";
     env_utcnow := now;
     env_insert_one := Ok oid |}.


Definition empty_world : world := World [] [].

Definition sample_agent_response : AgentResponse :=
  {| ar_success := true; ar_content := pystr "hello";
     ar_metadata := ∅; ar_error := None |}.

(** An agent library that works. *)
Definition engine_up : engine :=
  {| SearchAgent := Ok 1; ChatAgent := Ok 2;
     execute := λ _ _, Ok sample_agent_response;
     get_capabilities := λ _, Ok [pystr "chat"] |}.

(** An agent library whose [execute] raises an exception with text [text]. *)
Definition engine_failing (text : str) : engine :=
  {| SearchAgent := Ok 1; ChatAgent := Ok 2;
     execute := λ _ _, Raise (Fault text);
     get_capabilities := λ _, Ok [pystr "chat"] |}.

(** ** Status checks  (POST /status, GET /status) *)

Record StatusCheck := {
  sc_id : str;
  sc_client_name : str;
  sc_timestamp : N
}.

Record StatusCheckCreate := {
  scc_client_name : str
}.

(** What one run of [create_status_check] reads from its collaborators:
    [uuid.uuid4()] and the clock, the two default factories of
    [StatusCheck], and the outcome of [insert_one]. *)
Record status_env := {
  st_uuid4 : str;
  st_utcnow : N;
  st_insert_one : Result N
}.

(** [status_obj.dict()] *)
Definition status_dict (status_obj : StatusCheck) : doc :=
  <["id" := VStr (sc_id status_obj)]>
  (<["client_name" := VStr (sc_client_name status_obj)]>
   (<["timestamp" := VDatetime (sc_timestamp status_obj)]> ∅)).

(** The route has no [try]: an exception of [insert_one] escapes to the
    web framework. [coll] is the [status_checks] collection. *)
Definition create_status_check (env : status_env) (coll : list doc)
    (input : StatusCheckCreate) : list doc * http StatusCheck :=
  let status_obj :=
    {| sc_id := st_uuid4 env;
       sc_client_name := scc_client_name input;
       sc_timestamp := st_utcnow env |} in
  match st_insert_one env with
  | Ok oid =>
      (coll ++ [<["_id" := VObjectId oid]> (status_dict status_obj)],
       fastapi_route (Ok status_obj))
  | Raise e => (coll, fastapi_route (Raise e))
  end.

(** What [get_status_checks] reads besides the collection: the values the
    default factories give for the document at each position, should it
    lack the field. *)
Record listing_env := {
  ls_uuid4 : nat → str;
  ls_utcnow : nat → N
}.

(** The [StatusCheck] built from the keys of one document, and its
    validation. A
    string field takes a string only; the datetime field takes a datetime,
    or a string that [parse_datetime] (the parser of the validation
    library) accepts; a missing [id] or [timestamp] is filled by its
    default factory, a missing [client_name] is an error; other keys, such
    as ["_id"], are ignored. The error is a [ValueError]. *)
Definition validate_status (parse_datetime : str → option N)
    (default_id : str) (default_timestamp : N) (status_check : doc)
  : Result StatusCheck :=
  id ← match status_check !! "id" with
       | None => Ok default_id
       | Some (VStr s) => Ok s
       | Some _ => Raise (ValueError (pystr "id"))
       end;
  client_name ← match status_check !! "client_name" with
                | Some (VStr s) => Ok s
                | _ => Raise (ValueError (pystr "client_name"))
                end;
  timestamp ← match status_check !! "timestamp" with
              | None => Ok default_timestamp
              | Some (VDatetime t) => Ok t
              | Some (VStr s) =>
                  match parse_datetime s with
                  | Some t => Ok t
                  | None => Raise (ValueError (pystr "timestamp"))
                  end
              | Some _ => Raise (ValueError (pystr "timestamp"))
              end;
  Ok {| sc_id := id; sc_client_name := client_name;
        sc_timestamp := timestamp |}.

(** The list comprehension over the documents, from position [i] on. *)
Fixpoint validate_statuses (parse_datetime : str → option N)
    (lenv : listing_env) (i : nat) (status_checks : list doc)
  : Result (list StatusCheck) :=
  match status_checks with
  | [] => Ok []
  | status_check :: rest =>
      status_obj ← validate_status parse_datetime (ls_uuid4 lenv i)
                     (ls_utcnow lenv i) status_check;
      others ← validate_statuses parse_datetime lenv (S i) rest;
      Ok (status_obj :: others)
  end.

(** [find().to_list(1000)] gives the first 1000 documents, or raises
    [query_fault]. The route has no [try]. *)
Definition get_status_checks (parse_datetime : str → option N)
    (lenv : listing_env) (query_fault : option exn) (coll : list doc)
  : http (list StatusCheck) :=
  fastapi_route
    (status_checks ← match query_fault with
                     | Some e => Raise e
                     | None => Ok (take 1000 coll)
                     end;
     validate_statuses parse_datetime lenv 0 status_checks).


(** The status check a call creates. *)
Definition status_of (run : status_env * StatusCheckCreate) : StatusCheck :=
  {| sc_id := st_uuid4 run.1;
     sc_client_name := scc_client_name run.2;
     sc_timestamp := st_utcnow run.1 |}.

(** ** Search  (POST /search) and capabilities (GET /agents/capabilities) *)

(** [SearchRequest]; its [max_results] field is never read. *)
Record SearchRequest := {
  search_query : str
}.

(** The result of [execute] as the search route reads it. The values of
    its metadata are of a type [meta] the route does not look into. *)
Record ToolResult (meta : Type) := {
  tr_success : bool;
  tr_content : str;
  tr_metadata : gmap string meta;
  tr_error : option str
}.
Arguments tr_success {meta} _.
Arguments tr_content {meta} _.
Arguments tr_metadata {meta} _.
Arguments tr_error {meta} _.

Record SearchResponse (meta : Type) := {
  sresp_success : bool;
  sresp_query : str;
  sresp_summary : str;
  sresp_search_results : option (gmap string meta);
  sresp_sources_count : Z;
  sresp_error : option str
}.
Arguments sresp_success {meta} _.
Arguments sresp_query {meta} _.
Arguments sresp_summary {meta} _.
Arguments sresp_search_results {meta} _.
Arguments sresp_sources_count {meta} _.
Arguments sresp_error {meta} _.

(** What one search request reads from the agent library: the outcome of
    the constructor and of [execute(prompt, use_tools=True)]; and from the
    validation library: [validate_int], the validation of the value given
    for the integer field [sources_count]. *)
Record search_engine (meta : Type) := {
  se_SearchAgent : Result N;
  se_execute : N → str → Result (ToolResult meta);
  se_validate_int : meta → Result Z
}.
Arguments se_SearchAgent {meta} _.
Arguments se_execute {meta} _ _ _.
Arguments se_validate_int {meta} _ _.

(** The instruction the search route gives the agent. *)
Definition search_prompt_of (request : SearchRequest) : str :=
  pystr "Search for information about: " ++ search_query request
  ++ pystr ". Provide a comprehensive summary with key findings.".

(** The dict returned by [get_agent_capabilities]. *)
Record capabilities_response := {
  cap_success : bool;
  cap_capabilities : option (gmap string (list str));
  cap_error : option str
}.

(** Sample collaborators of the other endpoints. *)

(** An agent library whose constructors raise, with the [execute] and
    [get_capabilities] of [engine_up]. *)
Definition engine_no_constructors : engine :=
  {| SearchAgent := Raise (Fault (pystr "no credentials"));
     ChatAgent := Raise (Fault (pystr "no credentials"));
     execute := execute engine_up;
     get_capabilities := get_capabilities engine_up |}.

(** A search agent that used two tools; metadata values are integers. *)
Definition search_engine_up : search_engine Z :=
  {| se_SearchAgent := Ok 1;
     se_execute := λ _ _,
       Ok {| tr_success := true; tr_content := pystr "summary";
             tr_metadata := {["tools_used" := 2%Z]}; tr_error := None |};
     se_validate_int := λ v, Ok v |}.




Section Backend.

(** The Unicode database of the interpreter: the full lower-case mapping of
    a code point, and the Final_Sigma context test of [str.lower]. *)
Variable to_lower_full : N → list N.
Variable final_sigma : str → nat → bool.

(** [str(e)] for the exceptions whose text the runtime or a library builds. *)
Variable runtime_text : exn → str.

(** On ASCII the full lower-case mapping is the ASCII one. *)
Hypothesis to_lower_full_ascii :
  ∀ c, c < 128 → to_lower_full c = [ascii_lower c].

(** ** [str.lower]

    As in CPython: an ASCII-only string is lowered bytewise; otherwise each
    code point is replaced by its full lower-case mapping, except capital
    sigma (U+03A3), which becomes the final (U+03C2) or the medial (U+03C3)
    small sigma according to its context. *)

Definition lower_ucs4 (s : str) (i : nat) (c : N) : list N :=
  if c =? 0x3A3 then [if final_sigma s i then 0x3C2 else 0x3C3]
  else to_lower_full c.

Definition lower (s : str) : str :=
  if forallb is_ascii s then map ascii_lower s
  else concat (imap (lower_ucs4 s) s).

(** [str(e)]: an exception raised by a collaborator carries its own text. *)
Definition exn_str (e : exn) : str :=
  match e with
  | Fault text => text
  | _ => runtime_text e
  end.

(** ** [generate_image_mcp] *)

(** The body of the [try] block up to the selection of the image. *)
Definition select_image (prompt : str) : Result str :=
  let prompt_lower := lower prompt in
  let selected_image := scan_keywords sample_images prompt_lower default_image in
  if str_eqb selected_image default_image then
    data ← Utf8.encode prompt;
    prompt_hash ← int16 (take 8 (hexdigest data));
    index ← py_mod prompt_hash (N.of_nat (length image_list));
    py_index image_list index
  else Ok selected_image.

(** The ["metadata"] dict of a successful result. *)
Definition classifier_metadata (generation_time : str)
    (prompt aspect_ratio quality output_format : str) : gmap string str :=
  <["prompt" := prompt]>
  (<["aspect_ratio" := aspect_ratio]>
   (<["quality" := quality]>
    (<["format" := output_format]>
     (<["generation_time" := generation_time]>
      (<["source" := pystr "sample_images"]> ∅))))).

(** [generation_time] is [datetime.utcnow().isoformat()] read during the
    call. *)
Definition generate_image_mcp (generation_time : str)
    (prompt aspect_ratio quality output_format : str) : image_result :=
  try_except
    (selected_image ← select_image prompt;
     Ok {| ir_success := true;
           ir_url := Some selected_image;
           ir_metadata := Some
             (classifier_metadata generation_time prompt aspect_ratio
                quality output_format);
           ir_error := None |})
    (fun e =>
       {| ir_success := false; ir_url := None; ir_metadata := None;
          ir_error := Some (exn_str e) |}).

(** ** [generate_wallpaper]  (POST /wallpaper/generate) *)

Definition enhanced_prompt_of (request : WallpaperRequest) : str :=
  req_prompt request ++ pystr ", " ++ req_style request
  ++ pystr " style, phone wallpaper, " ++ req_aspect_ratio request
  ++ pystr " aspect ratio, high quality, detailed, vibrant colors".

Definition failure_response (request : WallpaperRequest) (error : str)
  : WallpaperResponse :=
  {| resp_success := false;
     resp_wallpaper_url := [];
     resp_prompt := req_prompt request;
     resp_style := req_style request;
     resp_aspect_ratio := req_aspect_ratio request;
     resp_metadata := ∅;
     resp_error := Some error |}.

(** ["1" if request.quality == "high" else "0.25"] *)
Definition quality_token (request : WallpaperRequest) : str :=
  if str_eqb (req_quality request) (pystr "high")
  then pystr "1" else pystr "0.25".

Definition generate_wallpaper (env : gen_env) (w : world)
    (request : WallpaperRequest) : world * http WallpaperResponse :=
  let enhanced_prompt := enhanced_prompt_of request in
  let quality := quality_token request in
  let output_format := pystr "webp" in
  let result :=
    generate_image_mcp (env_generation_time env) enhanced_prompt
      (req_aspect_ratio request) quality output_format in
  let w1 :=
    World (wallpapers w)
      (classifier_calls w ++
       [ {| cc_prompt := enhanced_prompt;
            cc_aspect_ratio := req_aspect_ratio request;
            cc_quality := quality;
            cc_output_format := output_format |} ]) in
  let '(w2, response) :=
    try_except
      (if ir_success result then
         url ← dict_get "url" (ir_url result);
         let metadata := default ∅ (ir_metadata result) in
         let wallpaper_data : doc :=
           <["id" := VStr (env_uuid4 env)]>
           (<["prompt" := VStr (req_prompt request)]>
            (<["enhanced_prompt" := VStr enhanced_prompt]>
             (<["style" := VStr (req_style request)]>
              (<["aspect_ratio" := VStr (req_aspect_ratio request)]>
               (<["quality" := VStr (req_quality request)]>
                (<["wallpaper_url" := VStr url]>
                 (<["timestamp" := VDatetime (env_utcnow env)]>
                  (<["metadata" := VDict metadata]> ∅)))))))) in
         oid ← env_insert_one env;
         Ok (World (wallpapers w1 ++ [<["_id" := VObjectId oid]> wallpaper_data])
                   (classifier_calls w1),
             {| resp_success := true;
                resp_wallpaper_url := url;
                resp_prompt := req_prompt request;
                resp_style := req_style request;
                resp_aspect_ratio := req_aspect_ratio request;
                resp_metadata := metadata;
                resp_error := None |})
       else
         Ok (w1,
             failure_response request
               (default (pystr "Failed to generate image") (ir_error result))))
      (fun e => (w1, failure_response request (exn_str e))) in
  (w2, fastapi_route (Ok response)).

(** ** [get_wallpaper_history]  (GET /wallpaper/history) *)

(** The body of the [async for] loop. *)
Definition strip_id (wallpaper : doc) : doc :=
  if decide (is_Some (wallpaper !! "_id")) then delete "_id" wallpaper
  else wallpaper.

(** [query_fault] is the exception the store raises while the cursor is
    read, if any. The documents the cursor yields are copies: deleting a key
    of one does not change the collection. *)
Definition get_wallpaper_history (query_fault : option exn) (w : world)
  : http history_response :=
  fastapi_route (Ok (
    try_except
      (found ← match query_fault with
               | Some e => Raise e
               | None => Ok (find_sorted_limit (wallpapers w))
               end;
       let wallpapers := strip_id <$> found in
       Ok {| hist_success := true;
             hist_wallpapers := wallpapers;
             hist_count := Some (length wallpapers);
             hist_error := None |})
      (fun e =>
         {| hist_success := false;
            hist_wallpapers := [];
            hist_count := None;
            hist_error := Some (exn_str e) |}))).

(** ** [chat_with_agent]  (POST /chat) *)

Definition chat_failure (request : ChatRequest) (e : exn) : ChatResponse :=
  {| cresp_success := false;
     cresp_response := [];
     cresp_agent_type := chat_agent_type request;
     cresp_capabilities := [];
     cresp_metadata := ∅;
     cresp_error := Some (exn_str e) |}.

(** "Init agents if needed": the globals after the [if]/[elif]. *)
Definition init_agents (eng : engine) (g : agents) (request : ChatRequest)
  : Result agents :=
  if str_eqb (chat_agent_type request) (pystr "search")
     && bool_decide (search_agent g = None) then
    a ← SearchAgent eng; Ok (Agents (Some a) (chat_agent g))
  else if str_eqb (chat_agent_type request) (pystr "chat")
          && bool_decide (chat_agent g = None) then
    a ← ChatAgent eng; Ok (Agents (search_agent g) (Some a))
  else Ok g.

(** "Select agent" *)
Definition select_agent (g : agents) (request : ChatRequest) : option N :=
  if str_eqb (chat_agent_type request) (pystr "search")
  then search_agent g else chat_agent g.

(** The rest of the [try] block, once the globals are set. *)
Definition run_agent (eng : engine) (g : agents) (request : ChatRequest)
  : Result ChatResponse :=
  agent ← match select_agent g request with
          | Some a => Ok a
          | None =>
              Raise (HTTPException 500 (pystr "Failed to initialize agent"))
          end;
  response ← execute eng agent (chat_message request);
  capabilities ← get_capabilities eng agent;
  Ok {| cresp_success := ar_success response;
        cresp_response := ar_content response;
        cresp_agent_type := chat_agent_type request;
        cresp_capabilities := capabilities;
        cresp_metadata := ar_metadata response;
        cresp_error := ar_error response |}.

Definition chat_with_agent (eng : engine) (g : agents) (request : ChatRequest)
  : agents * http ChatResponse :=
  match init_agents eng g request with
  | Raise e => (g, fastapi_route (Ok (chat_failure request e)))
  | Ok g1 =>
      (g1, fastapi_route (Ok (try_except (run_agent eng g1 request)
                                         (chat_failure request))))
  end.

(** [serve w runs]: the state after the requests [runs], served one after
    the other from [w]. *)
Fixpoint serve (w : world) (runs : list (gen_env * WallpaperRequest))
  : world :=
  match runs with
  | [] => w
  | (env, request) :: rest =>
      serve (generate_wallpaper env w request).1 rest
  end.

(** ** Outcomes of a wallpaper request *)

(** The record the handler stores, given the selected URL and the
    classifier metadata. *)
Definition stored_record (env : gen_env) (request : WallpaperRequest)
    (url : str) (metadata : gmap string str) (oid : N) : doc :=
  <["_id" := VObjectId oid]>
  (<["id" := VStr (env_uuid4 env)]>
   (<["prompt" := VStr (req_prompt request)]>
    (<["enhanced_prompt" := VStr (enhanced_prompt_of request)]>
     (<["style" := VStr (req_style request)]>
      (<["aspect_ratio" := VStr (req_aspect_ratio request)]>
       (<["quality" := VStr (req_quality request)]>
        (<["wallpaper_url" := VStr url]>
         (<["timestamp" := VDatetime (env_utcnow env)]>
          (<["metadata" := VDict metadata]> ∅))))))))).

Definition classifier_call_of (request : WallpaperRequest) : classifier_call :=
  {| cc_prompt := enhanced_prompt_of request;
     cc_aspect_ratio := req_aspect_ratio request;
     cc_quality := quality_token request;
     cc_output_format := pystr "webp" |}.

(** The three ways a request ends: classifier failure, persistence fault,
    success. *)
Inductive wallpaper_outcome (env : gen_env) (w : world)
    (request : WallpaperRequest) : world → WallpaperResponse → Prop :=
  | outcome_classifier_failed e :
      select_image (enhanced_prompt_of request) = Raise e →
      wallpaper_outcome env w request
        (World (wallpapers w) (classifier_calls w ++ [classifier_call_of request]))
        (failure_response request (exn_str e))
  | outcome_insert_failed selected e :
      select_image (enhanced_prompt_of request) = Ok selected →
      env_insert_one env = Raise e →
      wallpaper_outcome env w request
        (World (wallpapers w) (classifier_calls w ++ [classifier_call_of request]))
        (failure_response request (exn_str e))
  | outcome_stored selected oid :
      select_image (enhanced_prompt_of request) = Ok selected →
      env_insert_one env = Ok oid →
      let metadata :=
        classifier_metadata (env_generation_time env)
          (enhanced_prompt_of request) (req_aspect_ratio request)
          (quality_token request) (pystr "webp") in
      wallpaper_outcome env w request
        (World (wallpapers w ++ [stored_record env request selected metadata oid])
               (classifier_calls w ++ [classifier_call_of request]))
        {| resp_success := true;
           resp_wallpaper_url := selected;
           resp_prompt := req_prompt request;
           resp_style := req_style request;
           resp_aspect_ratio := req_aspect_ratio request;
           resp_metadata := metadata;
           resp_error := None |}.

(** ** Notions used to state the properties *)



(** [lower_in ctx off s]: the lower-casing of the part [s] of the string
    [ctx] that starts at position [off]. *)
Definition lower_in (ctx : str) (off : nat) (s : str) : str :=
  concat (imap (λ i c, lower_ucs4 ctx (off + i) c) s).

(** [keyword_in_request keyword request]: [keyword] occurs in the
    lower-cased prompt, style or aspect ratio of [request]. *)
Definition keyword_in_request (keyword : str) (request : WallpaperRequest)
  : Prop :=
  occurs_in keyword (lower (req_prompt request))
  ∨ occurs_in keyword (lower (req_style request))
  ∨ occurs_in keyword (lower (req_aspect_ratio request)).

(** ** [search_and_summarize]  (POST /search) *)

Definition search_failure {meta} (request : SearchRequest)
    (error : option str) : SearchResponse meta :=
  {| sresp_success := false;
     sresp_query := search_query request;
     sresp_summary := [];
     sresp_search_results := None;
     sresp_sources_count := 0%Z;
     sresp_error := error |}.

(** "Init search agent if needed": the globals after the [if], and the
    agent the global [search_agent] then holds. *)
Definition init_search_agent {meta} (seng : search_engine meta) (g : agents)
  : Result (agents * N) :=
  match search_agent g with
  | Some a => Ok (g, a)
  | None => a ← se_SearchAgent seng; Ok (Agents (Some a) (chat_agent g), a)
  end.

(** The rest of the [try] block. *)
Definition run_search {meta} (seng : search_engine meta) (agent : N)
    (request : SearchRequest) : Result (SearchResponse meta) :=
  result ← se_execute seng agent (search_prompt_of request);
  if tr_success result then
    sources_count ← match tr_metadata result !! "tools_used" with
                    | Some v => se_validate_int seng v
                    | None => Ok 0%Z
                    end;
    Ok {| sresp_success := true;
          sresp_query := search_query request;
          sresp_summary := tr_content result;
          sresp_search_results := Some (tr_metadata result);
          sresp_sources_count := sources_count;
          sresp_error := None |}
  else Ok (search_failure request (tr_error result)).

Definition search_and_summarize {meta} (seng : search_engine meta)
    (g : agents) (request : SearchRequest)
  : agents * http (SearchResponse meta) :=
  match init_search_agent seng g with
  | Raise e =>
      (g, fastapi_route (Ok (search_failure request (Some (exn_str e)))))
  | Ok (g1, agent) =>
      (g1, fastapi_route (Ok (
             try_except (run_search seng agent request)
               (fun e => search_failure request (Some (exn_str e))))))
  end.

(** ** [get_agent_capabilities]  (GET /agents/capabilities) *)

(** The two agents are built for this call only; the globals are not
    read. *)
Definition get_agent_capabilities (eng : engine)
  : http capabilities_response :=
  fastapi_route (Ok (
    try_except
      (search ← SearchAgent eng;
       search_caps ← get_capabilities eng search;
       chat ← ChatAgent eng;
       chat_caps ← get_capabilities eng chat;
       Ok {| cap_success := true;
             cap_capabilities := Some
               (<["search_agent" := search_caps]>
                (<["chat_agent" := chat_caps]> ∅));
             cap_error := None |})
      (fun e =>
         {| cap_success := false;
            cap_capabilities := None;
            cap_error := Some (exn_str e) |}))).

(** [successes w runs]: how many of the requests [runs], served one after
    the other from [w], are answered with success. *)
Fixpoint successes (w : world) (runs : list (gen_env * WallpaperRequest))
  : nat :=
  match runs with
  | [] => 0
  | (env, request) :: rest =>
      let '(w', r) := generate_wallpaper env w request in
      (match r with
       | Http200 body => if resp_success body then 1 else 0
       | HttpError _ _ => 0
       end + successes w' rest)%nat
  end.

(** * Properties *)

(** ** The result monad *)

Lemma bind_Ok {A B} (a : A) (k : A → Result B) : (Ok a ≫= k) = k a.
Proof. reflexivity. Qed.

Lemma bind_Raise {A B} (e : exn) (k : A → Result B) :
  (Raise e ≫= k) = Raise e.
Proof. reflexivity. Qed.

(** ** Substring search *)

Lemma starts_with_spec p s :
  starts_with p s = true ↔ ∃ post, s = p ++ post.
Proof.
  revert s. induction p as [|x p IH]; intros s; simpl.
  - split; [eauto | done].
  - destruct s as [|y s].
    + split; [done | intros [post Hpost]; discriminate].
    + rewrite andb_true_iff, N.eqb_eq, IH. split.
      * intros [-> [post ->]]. eauto.
      * intros [post Hpost]. simplify_eq. eauto.
Qed.

Lemma str_in_spec needle hay :
  str_in needle hay = true ↔ occurs_in needle hay.
Proof.
  unfold occurs_in. induction hay as [|y hay IH]; simpl.
  - rewrite orb_false_r, starts_with_spec. split.
    + intros [post Hpost]. exists [], post. done.
    + intros [pre [post Hpp]]. symmetry in Hpp.
      apply app_eq_nil in Hpp as [-> Hpp].
      apply app_eq_nil in Hpp as [-> ->]. by exists [].
  - rewrite orb_true_iff, starts_with_spec, IH. split.
    + intros [[post Hpost] | [pre [post Hpp]]].
      * exists [], post. done.
      * exists (y :: pre), post. by rewrite Hpp.
    + intros [[|z pre] [post Hpp]]; simpl in Hpp.
      * left. eauto.
      * right. simplify_eq. eauto.
Qed.

Lemma str_in_false needle hay :
  str_in needle hay = false ↔ ¬ occurs_in needle hay.
Proof.
  rewrite <- str_in_spec. by destruct (str_in needle hay).
Qed.

Lemma str_eqb_true a b : str_eqb a b = true ↔ a = b.
Proof. unfold str_eqb. apply bool_decide_eq_true. Qed.

Lemma str_eqb_false a b : str_eqb a b = false ↔ a ≠ b.
Proof. unfold str_eqb. apply bool_decide_eq_false. Qed.

(** ** The keyword scan *)

Lemma scan_keywords_first pre keyword image_url post prompt_lower selected :
  Forall (λ kv, ¬ occurs_in kv.1 prompt_lower) pre →
  occurs_in keyword prompt_lower →
  scan_keywords (pre ++ (keyword, image_url) :: post) prompt_lower selected
  = image_url.
Proof.
  intros Hpre Hkw. induction Hpre as [|[k u] pre Hk _ IH]; simpl.
  - apply str_in_spec in Hkw. by rewrite Hkw.
  - apply str_in_false in Hk. simpl in Hk. by rewrite Hk.
Qed.

Lemma scan_keywords_none table prompt_lower selected :
  Forall (λ kv, ¬ occurs_in kv.1 prompt_lower) table →
  scan_keywords table prompt_lower selected = selected.
Proof.
  induction 1 as [|[k u] table Hk _ IH]; simpl; [done|].
  apply str_in_false in Hk. simpl in Hk. by rewrite Hk.
Qed.

Lemma scan_keywords_range table prompt_lower selected :
  scan_keywords table prompt_lower selected = selected
  ∨ scan_keywords table prompt_lower selected ∈ table.*2.
Proof.
  induction table as [|[k u] table IH]; simpl; [by left|].
  destruct (str_in k prompt_lower).
  - right. left.
  - destruct IH as [IH | IH]; [by left | right; by right].
Qed.

Lemma default_image_fresh : default_image ∉ image_list.
Proof. apply (bool_decide_unpack _). by vm_compute. Qed.

Lemma image_list_length : length image_list = 10%nat.
Proof. reflexivity. Qed.

(** ** The hexadecimal prefix of a digest is always a number *)

Lemma hex_value_digit n : n < 16 → hex_value (hex_digit n) = Some n.
Proof.
  intros Hn. rewrite <- (N2Nat.id n).
  assert (Hk : (N.to_nat n < 16)%nat) by lia.
  generalize dependent (N.to_nat n). intros k Hk.
  do 16 (destruct k as [|k]; [reflexivity|]). lia.
Qed.

Lemma int16_from_hexlify bs acc :
  Forall (λ b, b < 256) bs → is_Some (int16_from acc (hexlify bs)).
Proof.
  intros Hbs. revert acc. induction Hbs as [|b bs Hb _ IH]; intros acc; simpl.
  - eauto.
  - rewrite !hex_value_digit; [apply IH | |].
    + apply N.mod_lt. done.
    + apply N.Div0.div_lt_upper_bound. lia.
Qed.

Lemma le_bytes_bound n w : Forall (λ b, b < 256) (Md5.le_bytes n w).
Proof.
  unfold Md5.le_bytes. apply Forall_fmap, Forall_forall. intros i _. simpl.
  apply N.mod_lt. done.
Qed.

Lemma md5_bound data : Forall (λ b, b < 256) (Md5.md5 data).
Proof.
  unfold Md5.md5, Md5.digest_of. rewrite !Forall_app.
  repeat split; apply le_bytes_bound.
Qed.

Lemma hexlify_take4 b0 b1 b2 b3 rest :
  take 8 (hexlify (b0 :: b1 :: b2 :: b3 :: rest)) = hexlify [b0; b1; b2; b3].
Proof. reflexivity. Qed.

Lemma le_bytes_4 w :
  Md5.le_bytes 4 w
  = [N.shiftr w 0 mod 256; N.shiftr w 8 mod 256;
     N.shiftr w 16 mod 256; N.shiftr w 24 mod 256].
Proof. reflexivity. Qed.

Lemma md5_first4 data :
  ∃ b0 b1 b2 b3 rest, Md5.md5 data = b0 :: b1 :: b2 :: b3 :: rest.
Proof. unfold Md5.md5, Md5.digest_of. rewrite le_bytes_4. eauto 6. Qed.

(** [int(hexdigest[:8], 16)] never raises. *)
Lemma prompt_hash_defined data :
  ∃ prompt_hash, int16 (take 8 (hexdigest data)) = Ok prompt_hash.
Proof.
  unfold hexdigest. pose proof (md5_bound data) as Hb.
  destruct (md5_first4 data) as (b0 & b1 & b2 & b3 & rest & Hd).
  rewrite Hd in *. rewrite hexlify_take4.
  assert (Hb4 : Forall (λ b, b < 256) [b0; b1; b2; b3]).
  { change [b0; b1; b2; b3] with (take 4 (b0 :: b1 :: b2 :: b3 :: rest)).
    by apply Forall_take. }
  destruct (int16_from_hexlify _ 0 Hb4) as [n Hn].
  exists n. unfold int16. rewrite Hn. reflexivity.
Qed.

(** [encode] raises exactly on strings that hold a surrogate. *)
Lemma encode_from_ok pos s whole :
  (∃ data, Utf8.encode_from pos s whole = Ok data)
  ↔ Forall (λ c, Utf8.is_surrogate c = false) s.
Proof.
  revert pos. induction s as [|c s IH]; intros pos; simpl.
  - split; [constructor | eauto].
  - rewrite Forall_cons, <- (IH (S pos)).
    destruct (Utf8.is_surrogate c).
    + split; [by intros [data ?] | by intros [? _]].
    + destruct (Utf8.encode_from (S pos) s whole) as [tl|e]; simpl.
      * split; eauto.
      * split; [by intros [data ?] | by intros [_ [data ?]]].
Qed.

(** ** The classifier *)

Lemma select_image_keyword prompt pre keyword image_url post :
  sample_images = pre ++ (keyword, image_url) :: post →
  Forall (λ kv, ¬ occurs_in kv.1 (lower prompt)) pre →
  occurs_in keyword (lower prompt) →
  select_image prompt = Ok image_url.
Proof.
  intros Htable Hpre Hkw. unfold select_image.
  rewrite Htable, scan_keywords_first by done.
  assert (Hin : image_url ∈ image_list).
  { unfold image_list. rewrite Htable. apply list_elem_of_fmap.
    exists (keyword, image_url). split; [done|].
    apply elem_of_app. right. left. }
  destruct (str_eqb image_url default_image) eqn:Heq; [|done].
  apply str_eqb_true in Heq. subst. by destruct default_image_fresh.
Qed.

Lemma select_image_fallback prompt data :
  Forall (λ kv, ¬ occurs_in kv.1 (lower prompt)) sample_images →
  Utf8.encode prompt = Ok data →
  ∃ prompt_hash selected,
    int16 (take 8 (hexdigest data)) = Ok prompt_hash
    ∧ image_list !! N.to_nat (prompt_hash mod 10) = Some selected
    ∧ select_image prompt = Ok selected.
Proof.
  intros Hnone Henc. unfold select_image.
  rewrite scan_keywords_none by done.
  assert (str_eqb default_image default_image = true) as ->
    by by apply str_eqb_true.
  rewrite Henc, bind_Ok.
  destruct (prompt_hash_defined data) as [h Hh]. rewrite Hh, bind_Ok.
  assert (Hlt : (N.to_nat (h mod 10) < length image_list)%nat).
  { rewrite image_list_length. pose proof (N.mod_lt h 10). lia. }
  apply lookup_lt_is_Some in Hlt as [selected Hsel].
  exists h, selected. split; [done|]. split; [done|].
  rewrite image_list_length. change (N.of_nat 10) with 10.
  unfold py_mod. change (10 =? 0) with false. cbv iota. rewrite bind_Ok.
  unfold py_index. by rewrite Hsel.
Qed.

Lemma select_image_unencodable prompt e :
  Forall (λ kv, ¬ occurs_in kv.1 (lower prompt)) sample_images →
  Utf8.encode prompt = Raise e →
  select_image prompt = Raise e.
Proof.
  intros Hnone Henc. unfold select_image.
  rewrite scan_keywords_none by done.
  assert (str_eqb default_image default_image = true) as ->
    by by apply str_eqb_true.
  by rewrite Henc.
Qed.

Lemma select_image_range prompt selected :
  select_image prompt = Ok selected → selected ∈ image_list.
Proof.
  unfold select_image.
  destruct (scan_keywords_range sample_images (lower prompt) default_image)
    as [-> | Hin].
  - assert (str_eqb default_image default_image = true) as ->
      by by apply str_eqb_true.
    destruct (Utf8.encode prompt) as [data|]; [|by rewrite bind_Raise].
    rewrite bind_Ok.
    destruct (int16 _) as [h|]; [|by rewrite bind_Raise].
    rewrite bind_Ok.
    destruct (py_mod _ _) as [i|]; [|by rewrite bind_Raise].
    rewrite bind_Ok.
    unfold py_index. destruct (image_list !! _) as [x|] eqn:Hx; [|done].
    intros [= <-]. by eapply list_elem_of_lookup_2.
  - destruct (str_eqb _ default_image) eqn:Heq.
    + apply str_eqb_true in Heq. rewrite Heq in Hin.
      by destruct default_image_fresh.
    + by intros [= <-].
Qed.

Lemma generate_image_mcp_ok gt prompt ar q fmt selected :
  select_image prompt = Ok selected →
  generate_image_mcp gt prompt ar q fmt
  = ImageResult true (Some selected)
      (Some (classifier_metadata gt prompt ar q fmt)) None.
Proof. intros H. unfold generate_image_mcp. by rewrite H. Qed.

Lemma generate_image_mcp_raise gt prompt ar q fmt e :
  select_image prompt = Raise e →
  generate_image_mcp gt prompt ar q fmt
  = ImageResult false None None (Some (exn_str e)).
Proof. intros H. unfold generate_image_mcp. by rewrite H. Qed.

Lemma generate_image_mcp_first_keyword gt prompt ar q fmt
    pre keyword image_url post :
  sample_images = pre ++ (keyword, image_url) :: post →
  Forall (λ kv, ¬ occurs_in kv.1 (lower prompt)) pre →
  occurs_in keyword (lower prompt) →
  generate_image_mcp gt prompt ar q fmt
  = ImageResult true (Some image_url)
      (Some (classifier_metadata gt prompt ar q fmt)) None.
Proof.
  intros Htable Hpre Hkw. apply generate_image_mcp_ok.
  by apply (select_image_keyword _ pre keyword image_url post).
Qed.

(** A table in which some keyword occurs has a first such entry. *)
Lemma first_match (table : list (str * str)) text :
  (∃ kv, kv ∈ table ∧ occurs_in kv.1 text) →
  ∃ pre keyword image_url post,
    table = pre ++ (keyword, image_url) :: post
    ∧ Forall (λ kv, ¬ occurs_in kv.1 text) pre
    ∧ occurs_in keyword text.
Proof.
  induction table as [|[k u] table IH].
  - by intros (kv & ?%elem_of_nil & _).
  - intros (kv & Hin & Hocc). destruct (str_in k text) eqn:Hk.
    + exists [], k, u, table. split; [done|]. split; [constructor|].
      by apply str_in_spec.
    + apply str_in_false in Hk.
      destruct IH as (pre & keyword & image_url & post & -> & Hpre & Hkw).
      { apply elem_of_cons in Hin as [-> | Hin]; [done | eauto]. }
      exists ((k, u) :: pre), keyword, image_url, post.
      split; [done|]. split; [by constructor | done].
Qed.

(** C1. When some known keyword occurs in the lower-cased prompt, the table
    has a first entry, in its declaration order (sunset, mountains,
    abstract, geometric, nature, minimal, gradient, neon, artistic, space),
    whose keyword occurs there, and the classifier succeeds with the URL of
    that entry, whatever else the prompt holds and whatever the other
    arguments are. *)
Theorem first_keyword_in_declaration_order
    generation_time prompt aspect_ratio quality output_format :
  (∃ keyword, keyword ∈ keywords ∧ occurs_in keyword (lower prompt)) →
  let r := generate_image_mcp generation_time prompt aspect_ratio quality
             output_format in
  (∃ pre keyword image_url post,
     sample_images = pre ++ (keyword, image_url) :: post
     ∧ Forall (λ kv, ¬ occurs_in kv.1 (lower prompt)) pre
     ∧ occurs_in keyword (lower prompt)
     ∧ ir_success r = true
     ∧ ir_url r = Some image_url)
  ∧ keywords = pystr <$> ["sunset"; "mountains"; "abstract"; "geometric";
                          "nature"; "minimal"; "gradient"; "neon";
                          "artistic"; "space"]%string.
Proof.
  intros (keyword & Hin & Hocc) r. split; [|done].
  destruct (first_match sample_images (lower prompt))
    as (pre & kw & url & post & Htable & Hpre & Hkw).
  { unfold keywords in Hin.
    apply list_elem_of_fmap in Hin as ([k u] & -> & Hin). eauto. }
  exists pre, kw, url, post. subst r.
  rewrite (generate_image_mcp_first_keyword _ _ _ _ _ _ _ _ _ Htable Hpre Hkw).
  done.
Qed.

Lemma no_keyword_Forall text :
  (∀ keyword, keyword ∈ keywords → ¬ occurs_in keyword text) →
  Forall (λ kv, ¬ occurs_in kv.1 text) sample_images.
Proof.
  intros H. apply Forall_forall. intros [k u] Hin. apply H.
  unfold keywords. apply list_elem_of_fmap. by exists (k, u).
Qed.

Lemma generate_image_mcp_url_indep gt gt' prompt ar ar' q q' fmt fmt' :
  ir_url (generate_image_mcp gt' prompt ar' q' fmt')
  = ir_url (generate_image_mcp gt prompt ar q fmt).
Proof. unfold generate_image_mcp. by destruct (select_image prompt). Qed.

Lemma generate_image_mcp_cases gt prompt ar q fmt :
  (∃ selected, select_image prompt = Ok selected
     ∧ generate_image_mcp gt prompt ar q fmt
       = ImageResult true (Some selected)
           (Some (classifier_metadata gt prompt ar q fmt)) None)
  ∨ (∃ e, select_image prompt = Raise e
       ∧ generate_image_mcp gt prompt ar q fmt
         = ImageResult false None None (Some (exn_str e))).
Proof.
  destruct (select_image prompt) as [selected|e] eqn:Hsel.
  - left. exists selected. split; [done|]. by apply generate_image_mcp_ok.
  - right. exists e. split; [done|]. by apply generate_image_mcp_raise.
Qed.

(** C2 (as amended). For a prompt in which no known keyword occurs after
    lower-casing: if the prompt can be encoded in UTF-8, the classifier
    succeeds with the URL at index [H mod 10] of the table's values in
    declaration order, where [H] is the number written by the first 8
    hexadecimal digits of the MD5 digest of the encoded original-case
    prompt; if it cannot (it holds a lone surrogate), the classifier returns
    a failure result that carries no URL. In both cases the outcome depends
    on the prompt alone: any two calls with the same prompt select the
    same URL. A prompt can be encoded exactly when it holds no surrogate
    code point. *)
Theorem hash_fallback_when_no_keyword
    generation_time prompt aspect_ratio quality output_format :
  (∀ keyword, keyword ∈ keywords → ¬ occurs_in keyword (lower prompt)) →
  let r := generate_image_mcp generation_time prompt aspect_ratio quality
             output_format in
  match Utf8.encode prompt with
  | Ok data =>
      ∃ H, int16 (take 8 (hexdigest data)) = Ok H
           ∧ ir_success r = true
           ∧ is_Some (ir_url r)
           ∧ ir_url r = image_list !! N.to_nat (H mod 10)
  | Raise e =>
      ir_success r = false ∧ ir_url r = None
      ∧ ir_error r = Some (exn_str e)
  end
  ∧ ((∃ data, Utf8.encode prompt = Ok data)
     ↔ Forall (λ c, Utf8.is_surrogate c = false) prompt)
  ∧ ∀ generation_time' aspect_ratio' quality' output_format',
      ir_url (generate_image_mcp generation_time' prompt aspect_ratio'
                quality' output_format') = ir_url r.
Proof.
  intros Hnone%no_keyword_Forall r. split; [|split; [apply encode_from_ok|]].
  - destruct (Utf8.encode prompt) as [data|e] eqn:Henc.
    + destruct (select_image_fallback _ _ Hnone Henc)
        as (h & selected & Hh & Hidx & Hsel).
      exists h. subst r. rewrite (generate_image_mcp_ok _ _ _ _ _ _ Hsel).
      cbn [ir_success ir_url]. rewrite Hidx. eauto.
    + pose proof (select_image_unencodable _ _ Hnone Henc) as Hsel.
      subst r. by rewrite (generate_image_mcp_raise _ _ _ _ _ _ Hsel).
  - intros. apply generate_image_mcp_url_indep.
Qed.

(** C9. Whenever the classifier succeeds, the URL it returns is one of the
    ten URLs of the table's values; it is never the separately declared
    default URL. *)
Theorem successful_url_is_table_value
    generation_time prompt aspect_ratio quality output_format :
  let r := generate_image_mcp generation_time prompt aspect_ratio quality
             output_format in
  ir_success r = true →
  ∃ selected, ir_url r = Some selected
              ∧ selected ∈ image_list
              ∧ selected ≠ default_image
              ∧ length image_list = 10%nat.
Proof.
  intros r. subst r.
  destruct (generate_image_mcp_cases generation_time prompt aspect_ratio
              quality output_format) as [(u & Hsel & ->) | (e & _ & ->)];
    cbn [ir_success ir_url]; [intros _ | done].
  pose proof (select_image_range _ _ Hsel) as Hin.
  exists u. repeat split; [done|].
  intros ->. by destruct default_image_fresh.
Qed.

(** ** [generate_wallpaper] *)

Lemma generate_wallpaper_outcome env w request :
  ∃ w' body,
    generate_wallpaper env w request = (w', Http200 body)
    ∧ wallpaper_outcome env w request w' body.
Proof.
  unfold generate_wallpaper.
  destruct (generate_image_mcp_cases (env_generation_time env)
              (enhanced_prompt_of request) (req_aspect_ratio request)
              (quality_token request) (pystr "webp"))
    as [(u & Hsel & ->) | (e & Hsel & ->)]; cbn [ir_success ir_url ir_metadata ir_error].
  - unfold dict_get. rewrite bind_Ok.
    destruct (env_insert_one env) as [oid|e] eqn:Hins.
    + rewrite bind_Ok. cbn [try_except default wallpapers classifier_calls fastapi_route].
      eexists _, _. split; [reflexivity|].
      by apply (outcome_stored env w request u oid).
    + rewrite bind_Raise. cbn [try_except fastapi_route].
      eexists _, _. split; [reflexivity|].
      by apply (outcome_insert_failed env w request u e).
  - cbn [try_except default fastapi_route].
    eexists _, _. split; [reflexivity|].
    by apply (outcome_classifier_failed env w request e).
Qed.

Lemma stored_record_url env request url metadata oid :
  stored_record env request url metadata oid !! "wallpaper_url"
  = Some (VStr url).
Proof. unfold stored_record. by simplify_map_eq. Qed.

Lemma stored_record_prompt env request url metadata oid :
  stored_record env request url metadata oid !! "prompt"
  = Some (VStr (req_prompt request)).
Proof. unfold stored_record. by simplify_map_eq. Qed.


(** C5. A request that is answered with success has appended exactly one
    record to the wallpapers collection; a request that is answered with
    failure has left the collection unchanged, and its response carries an
    empty URL and the error message of what failed: the error of the
    classifier result, or the text of the exception raised while storing. *)
Theorem one_write_on_success_none_on_failure env w request :
  let '(w', r) := generate_wallpaper env w request in
  let result :=
    generate_image_mcp (env_generation_time env) (enhanced_prompt_of request)
      (req_aspect_ratio request) (quality_token request) (pystr "webp") in
  ∃ body, r = Http200 body
    ∧ (resp_success body = true →
         ∃ record,
           wallpapers w' = wallpapers w ++ [record]
           ∧ record !! "wallpaper_url" = Some (VStr (resp_wallpaper_url body))
           ∧ record !! "prompt" = Some (VStr (req_prompt request)))
    ∧ (resp_success body = false →
         wallpapers w' = wallpapers w
         ∧ resp_wallpaper_url body = []
         ∧ ((ir_success result = false
             ∧ resp_error body = ir_error result
             ∧ is_Some (resp_error body))
            ∨ (∃ e, env_insert_one env = Raise e
                    ∧ resp_error body = Some (exn_str e)))).
Proof.
  destruct (generate_wallpaper_outcome env w request)
    as (w' & body & -> & Hout).
  exists body. split; [done|].
  destruct Hout as [e Hsel | selected e Hsel Hins | selected oid Hsel Hins];
    cbn [resp_success failure_response wallpapers resp_wallpaper_url
         resp_error]; (split; [intros Hs | intros Hf]); try done.
  - repeat split; try done. left.
    rewrite (generate_image_mcp_raise _ _ _ _ _ _ Hsel). simpl. eauto.
  - repeat split; try done. right. eauto.
  - eexists. split; [done|].
    by rewrite stored_record_url, stored_record_prompt.
Qed.


Lemma generate_wallpaper_records env w request record :
  record ∈ wallpapers (generate_wallpaper env w request).1 →
  record ∈ wallpapers w
  ∨ ∃ url, record !! "wallpaper_url" = Some (VStr url) ∧ url ∈ image_list.
Proof.
  destruct (generate_wallpaper_outcome env w request)
    as (w' & body & -> & Hout). cbn [fst].
  destruct Hout as [e Hsel | selected e Hsel Hins | selected oid Hsel Hins];
    cbn [wallpapers]; [by left | by left |].
  intros [Hold | ->%list_elem_of_singleton]%elem_of_app; [by left|].
  right. exists selected. split; [apply stored_record_url|].
  by apply (select_image_range (enhanced_prompt_of request)).
Qed.

Lemma serve_records w runs record :
  (∀ r, r ∈ wallpapers w →
     ∃ url, r !! "wallpaper_url" = Some (VStr url) ∧ url ∈ image_list) →
  record ∈ wallpapers (serve w runs) →
  ∃ url, record !! "wallpaper_url" = Some (VStr url) ∧ url ∈ image_list.
Proof.
  revert w. induction runs as [|[env request] runs IH]; intros w Hw; simpl.
  - apply Hw.
  - apply IH. intros r Hr.
    destruct (generate_wallpaper_records _ _ _ _ Hr) as [Hold | Hnew];
      [by apply Hw | done].
Qed.

(** C8. The URL of every response of the handler is a value of the static
    image table, or the empty string in a failure response; every record the
    handler adds to the collection has a URL of the table, and so has every
    record of a store that started empty and was written by the handler
    only. *)
Theorem wallpaper_url_from_table_or_empty env w request :
  let '(w', r) := generate_wallpaper env w request in
  (∃ body, r = Http200 body
     ∧ (resp_wallpaper_url body ∈ image_list
        ∨ (resp_success body = false ∧ resp_wallpaper_url body = [])))
  ∧ (∀ record, record ∈ wallpapers w' →
       record ∈ wallpapers w
       ∨ ∃ url, record !! "wallpaper_url" = Some (VStr url)
                ∧ url ∈ image_list)
  ∧ (∀ runs record, record ∈ wallpapers (serve empty_world runs) →
       ∃ url, record !! "wallpaper_url" = Some (VStr url)
              ∧ url ∈ image_list).
Proof.
  pose proof (generate_wallpaper_records env w request) as Hrec.
  destruct (generate_wallpaper_outcome env w request)
    as (w' & body & Heq & Hout). rewrite Heq in Hrec |- *. cbn [fst] in Hrec.
  split; [|split; [exact Hrec|]].
  - exists body. split; [done|].
    destruct Hout as [e Hsel | selected e Hsel Hins | selected oid Hsel Hins];
      cbn [resp_success failure_response resp_wallpaper_url];
      [by right | by right | left].
    by apply (select_image_range (enhanced_prompt_of request)).
  - intros runs record. apply serve_records.
    by intros r ?%elem_of_nil.
Qed.

(** ** [get_wallpaper_history] *)

Global Instance newer_or_equal_trans : Transitive newer_or_equal.
Proof. intros x y z. unfold newer_or_equal. lia. Qed.

Global Instance newer_or_equal_total : Total newer_or_equal.
Proof. intros x y. unfold newer_or_equal. lia. Qed.

Lemma strip_id_delete d : strip_id d = delete "_id" d.
Proof.
  unfold strip_id. case_decide as Hid; [done|].
  symmetry. apply delete_id. by apply eq_None_not_Some.
Qed.




Lemma find_sorted_limit_length coll :
  length (find_sorted_limit coll) = (length coll `min` 50)%nat.
Proof.
  unfold find_sorted_limit.
  rewrite length_take, (Permutation_length (merge_sort_Permutation _ coll)).
  lia.
Qed.



(** ** [chat_with_agent] *)

Lemma str_eqb_refl a : str_eqb a a = true.
Proof. by apply str_eqb_true. Qed.

(** C3 (what the code does). A request whose agent type is neither
    "search" nor "chat", while no chat agent exists, reaches the
    [raise HTTPException(500)] of the handler; the surrounding [except]
    catches it, and the answer is HTTP 200 with a failure body whose error
    is the text of that exception, not an HTTP 500. *)
Theorem agent_not_initialized_answers_200 eng g request :
  chat_agent_type request ≠ pystr "search" →
  chat_agent_type request ≠ pystr "chat" →
  chat_agent g = None →
  select_agent g request = None
  ∧ chat_with_agent eng g request
    = (g, Http200
            {| cresp_success := false;
               cresp_response := [];
               cresp_agent_type := chat_agent_type request;
               cresp_capabilities := [];
               cresp_metadata := ∅;
               cresp_error :=
                 Some (runtime_text
                         (HTTPException 500
                            (pystr "Failed to initialize agent"))) |}).
Proof.
  intros Hs%str_eqb_false Hc%str_eqb_false Hnone.
  unfold chat_with_agent, init_agents, run_agent, select_agent.
  rewrite Hs, Hc. cbn [andb]. rewrite Hnone. done.
Qed.


(** ** Lower-casing the enhanced prompt *)

Lemma forallb_elem {A} (f : A → bool) (l : list A) x :
  forallb f l = true → x ∈ l → f x = true.
Proof.
  induction l as [|y l IH]; simpl; [by intros _ ?%elem_of_nil|].
  intros [Hy Hl]%andb_true_iff [-> | Hx]%elem_of_cons; auto.
Qed.

Lemma no_keyword_in_spec text :
  no_keyword_in text = true →
  ∀ keyword, keyword ∈ keywords → ¬ occurs_in keyword text.
Proof.
  intros H keyword Hin. apply str_in_false.
  apply (forallb_elem _ _ _ H) in Hin. by apply negb_true_iff in Hin.
Qed.

Lemma lower_ucs4_ascii ctx i c : c < 128 → lower_ucs4 ctx i c = [ascii_lower c].
Proof.
  intros Hc. unfold lower_ucs4.
  destruct (c =? 931) eqn:Heq; [apply N.eqb_eq in Heq; lia|].
  by apply to_lower_full_ascii.
Qed.

Lemma lower_in_cons ctx off c s :
  lower_in ctx off (c :: s) = lower_ucs4 ctx off c ++ lower_in ctx (S off) s.
Proof.
  unfold lower_in. rewrite imap_cons. cbn [concat].
  rewrite Nat.add_0_r. f_equal. f_equal. apply imap_ext.
  intros i x _. simpl. f_equal. lia.
Qed.

Lemma lower_in_app ctx off a b :
  lower_in ctx off (a ++ b)
  = lower_in ctx off a ++ lower_in ctx (off + length a) b.
Proof.
  revert off. induction a as [|c a IH]; intros off; simpl.
  - by rewrite Nat.add_0_r.
  - rewrite !lower_in_cons, IH, <- app_assoc. do 3 f_equal. lia.
Qed.

Lemma lower_in_ascii ctx off s :
  forallb is_ascii s = true → lower_in ctx off s = map ascii_lower s.
Proof.
  revert off. induction s as [|c s IH]; intros off H; [done|].
  simpl in H. apply andb_true_iff in H as [Hc Hs].
  rewrite lower_in_cons, lower_ucs4_ascii, IH; [done | done |].
  by apply N.ltb_lt.
Qed.

Lemma lower_lower_in s : lower s = lower_in s 0 s.
Proof.
  unfold lower. destruct (forallb is_ascii s) eqn:H.
  - by rewrite lower_in_ascii.
  - reflexivity.
Qed.

Lemma sigma_eq_refl l : Forall2 sigma_eq l l.
Proof. induction l; constructor; [by left | done]. Qed.

Lemma lower_in_sigma_eq ctx ctx' off off' s :
  Forall2 sigma_eq (lower_in ctx off s) (lower_in ctx' off' s).
Proof.
  revert off off'. induction s as [|c s IH]; intros off off'; [constructor|].
  rewrite !lower_in_cons. apply Forall2_app; [|apply IH].
  unfold lower_ucs4. destruct (c =? 931); [|apply sigma_eq_refl].
  constructor; [|constructor].
  right. by destruct (final_sigma ctx off), (final_sigma ctx' off').
Qed.

Lemma sigma_eq_plain keyword s :
  forallb (λ c, negb (is_small_sigma c)) keyword = true →
  Forall2 sigma_eq keyword s → s = keyword.
Proof.
  intros Hplain Hs. induction Hs as [|c c' keyword s Hc _ IH]; [done|].
  simpl in Hplain. apply andb_true_iff in Hplain as [Hp Hplain].
  rewrite IH by done. f_equal.
  destruct Hc as [-> | [Hsig _]]; [done|].
  rewrite Hsig in Hp. done.
Qed.

Lemma occurs_in_sigma_eq keyword s s' :
  forallb (λ c, negb (is_small_sigma c)) keyword = true →
  Forall2 sigma_eq s s' → occurs_in keyword s → occurs_in keyword s'.
Proof.
  intros Hplain HF (pre & post & ->).
  apply Forall2_app_inv_l in HF as (pre' & rest & _ & HF & ->).
  apply Forall2_app_inv_l in HF as (keyword' & post' & Hkw & _ & ->).
  apply sigma_eq_plain in Hkw as ->; [|done]. by exists pre', post'.
Qed.

Lemma occurs_in_lower_in keyword ctx off s :
  forallb (λ c, negb (is_small_sigma c)) keyword = true →
  occurs_in keyword (lower_in ctx off s) ↔ occurs_in keyword (lower s).
Proof.
  intros Hplain. rewrite lower_lower_in.
  split; apply occurs_in_sigma_eq; try done; apply lower_in_sigma_eq.
Qed.

(** A keyword without the separator occurs on one side of it. *)
Lemma occurs_in_sep keyword sep a b :
  sep ∉ keyword →
  occurs_in keyword (a ++ sep :: b)
  ↔ occurs_in keyword a ∨ occurs_in keyword b.
Proof.
  intros Hsep. split.
  - intros (pre & post & H).
    apply app_eq_app in H as [l [[-> H] | [-> H]]].
    + symmetry in H. apply app_eq_app in H as [l2 [[-> H] | [-> H]]].
      * left. by exists pre, l2.
      * destruct l2 as [|x l2]; simpl in H.
        -- left. exists pre, []. by rewrite !app_nil_r.
        -- injection H as <- _. destruct Hsep.
           apply elem_of_app. right. left.
    + destruct l as [|x l]; simpl in H.
      * destruct keyword as [|x keyword]; simpl in H.
        -- left. exists a, []. by rewrite !app_nil_r.
        -- injection H as -> _. destruct Hsep. left.
      * injection H as _ ->. right. by exists l, post.
  - intros [(pre & post & ->) | (pre & post & ->)].
    + exists pre, (post ++ sep :: b). by rewrite <- !app_assoc.
    + exists (a ++ sep :: pre), post. by rewrite <- app_assoc.
Qed.

Lemma lower_in_enhanced ctx off request :
  lower_in ctx off (enhanced_prompt_of request)
  = lower_in ctx off (req_prompt request)
    ++ 44 :: ([] ++ 32 ::
       (lower_in ctx (off + length (req_prompt request) + 2)
          (req_style request)
        ++ 32 :: (pystr "style, phone wallpaper,"
        ++ 32 :: (lower_in ctx
                    (off + length (req_prompt request) + 2
                     + length (req_style request) + 25)
                    (req_aspect_ratio request)
        ++ 32 :: pystr "aspect ratio, high quality, detailed, vibrant colors")))).
Proof.
  unfold enhanced_prompt_of. rewrite !lower_in_app.
  rewrite !(lower_in_ascii _ _ (pystr _)) by reflexivity.
  replace (off + length (req_prompt request) + length (pystr ", "))%nat
    with (off + length (req_prompt request) + 2)%nat by reflexivity.
  replace (off + length (req_prompt request) + 2
           + length (req_style request)
           + length (pystr " style, phone wallpaper, "))%nat
    with (off + length (req_prompt request) + 2
          + length (req_style request) + 25)%nat by reflexivity.
  reflexivity.
Qed.

Lemma keyword_safe_facts keyword :
  keyword_safe keyword = true →
  lower keyword = keyword
  ∧ forallb (λ c, negb (is_small_sigma c)) keyword = true
  ∧ (44 ∉ keyword) ∧ (32 ∉ keyword)
  ∧ ¬ occurs_in keyword []
  ∧ ¬ occurs_in keyword (pystr "style, phone wallpaper,")
  ∧ ¬ occurs_in keyword
        (pystr "aspect ratio, high quality, detailed, vibrant colors").
Proof.
  unfold keyword_safe. rewrite !andb_true_iff, !negb_true_iff.
  rewrite !bool_decide_eq_false, bool_decide_eq_true, !str_in_false.
  intros [[[[[[[Hascii Hlow] Hplain] Hcomma] Hblank] Hne] Hmid] Htail].
  repeat split; try done.
  unfold lower. by rewrite Hascii.
Qed.

Lemma keywords_safe : Forall (λ keyword, keyword_safe keyword = true) keywords.
Proof. apply (bool_decide_unpack _). by vm_compute. Qed.



(** The scan of the enhanced prompt finds a keyword exactly when it is in
    the lower-cased prompt, style or aspect ratio of the request. *)
Lemma keyword_in_enhanced request keyword :
  keyword ∈ keywords →
  occurs_in keyword (lower (enhanced_prompt_of request))
  ↔ occurs_in keyword (lower (req_prompt request))
    ∨ occurs_in keyword (lower (req_style request))
    ∨ occurs_in keyword (lower (req_aspect_ratio request)).
Proof.
  intros Hin.
  pose proof keywords_safe as Hsafe.
  rewrite Forall_forall in Hsafe. apply Hsafe in Hin.
  apply keyword_safe_facts
    in Hin as (_ & Hplain & Hcomma & Hblank & Hne & Hmid & Htail).
  rewrite lower_lower_in, lower_in_enhanced.
  rewrite !occurs_in_sep by done.
  rewrite !occurs_in_lower_in by done.
  tauto.
Qed.


(** ** Further properties of the classifier *)

Lemma forallb_false_elem {A} (f : A → bool) (l : list A) :
  forallb f l = false → ∃ x, x ∈ l ∧ f x = false.
Proof.
  induction l as [|y l IH]; simpl; [done|].
  destruct (f y) eqn:Hy; simpl.
  - intros (x & Hx & Hf)%IH. exists x. split; [by right | done].
  - intros _. exists y. split; [left | done].
Qed.

Lemma keyword_occurs_dec text :
  (∃ keyword, keyword ∈ keywords ∧ occurs_in keyword text)
  ∨ (∀ keyword, keyword ∈ keywords → ¬ occurs_in keyword text).
Proof.
  destruct (no_keyword_in text) eqn:H.
  - right. by apply no_keyword_in_spec.
  - left. apply forallb_false_elem in H as (keyword & Hin & Hf).
    exists keyword. split; [done|].
    apply str_in_spec. by apply negb_false_iff.
Qed.

Lemma keyword_gives_url prompt :
  (∃ keyword, keyword ∈ keywords ∧ occurs_in keyword (lower prompt)) →
  ∃ image_url, select_image prompt = Ok image_url.
Proof.
  intros (keyword & Hin & Hocc).
  destruct (first_match sample_images (lower prompt))
    as (pre & kw & url & post & Htable & Hpre & Hkw).
  { unfold keywords in Hin.
    apply list_elem_of_fmap in Hin as ([k u] & -> & Hin). eauto. }
  exists url. by apply (select_image_keyword _ pre kw url post).
Qed.

Lemma surrogate_cases s :
  Forall (λ c, Utf8.is_surrogate c = false) s
  ∨ Exists (λ c, Utf8.is_surrogate c = true) s.
Proof.
  induction s as [|c s [IH | IH]]; [by left | |].
  - destruct (Utf8.is_surrogate c) eqn:Hc;
      [right; by left | left; by constructor].
  - right. by right.
Qed.

Lemma surrogate_exclusive s :
  Forall (λ c, Utf8.is_surrogate c = false) s →
  Exists (λ c, Utf8.is_surrogate c = true) s → False.
Proof.
  intros HF HE. apply Exists_exists in HE as (c & Hin & Hc).
  rewrite Forall_forall in HF. specialize (HF c Hin). congruence.
Qed.

(** X1. The classifier fails exactly on the prompts in which no known
    keyword occurs after lower-casing and which hold a surrogate code
    point; on every other prompt it succeeds. *)
Theorem classifier_fails_iff
    generation_time prompt aspect_ratio quality output_format :
  ir_success (generate_image_mcp generation_time prompt aspect_ratio quality
                output_format) = false
  ↔ (∀ keyword, keyword ∈ keywords → ¬ occurs_in keyword (lower prompt))
    ∧ Exists (λ c, Utf8.is_surrogate c = true) prompt.
Proof.
  destruct (keyword_occurs_dec (lower prompt)) as [Hsome | Hnone].
  - destruct (keyword_gives_url _ Hsome) as [url Hsel].
    rewrite (generate_image_mcp_ok _ _ _ _ _ _ Hsel). cbn [ir_success].
    split; [done|]. intros [Hnone _].
    destruct Hsome as (keyword & Hin & Hocc). by destruct (Hnone keyword).
  - pose proof (no_keyword_Forall _ Hnone) as HF.
    destruct (Utf8.encode prompt) as [data|e] eqn:Henc.
    + destruct (select_image_fallback _ _ HF Henc)
        as (h & selected & _ & _ & Hsel).
      rewrite (generate_image_mcp_ok _ _ _ _ _ _ Hsel). cbn [ir_success].
      split; [done|]. intros [_ Hsur]. exfalso.
      apply (surrogate_exclusive prompt); [|done].
      apply (encode_from_ok 0 prompt prompt). eauto.
    + rewrite (generate_image_mcp_raise _ _ _ _ _ _
                 (select_image_unencodable _ _ HF Henc)).
      cbn [ir_success]. split; [intros _ | done]. split; [done|].
      destruct (surrogate_cases prompt) as [Hok | Hsur]; [|done].
      apply (encode_from_ok 0 prompt prompt) in Hok as [data Hdata].
      unfold Utf8.encode in Henc. congruence.
Qed.

Lemma lower_ascii s : forallb is_ascii s = true → lower s = map ascii_lower s.
Proof. intros H. unfold lower. by rewrite H. Qed.

(** X2. Two ASCII prompts that differ only in the case of their letters
    and in which a known keyword occurs are classified alike: both calls
    succeed and select the same URL, whatever the other arguments are. *)
Theorem ascii_case_does_not_change_keyword_url
    gt gt' prompt prompt' ar ar' q q' fmt fmt' :
  forallb is_ascii prompt = true →
  forallb is_ascii prompt' = true →
  map ascii_lower prompt = map ascii_lower prompt' →
  (∃ keyword, keyword ∈ keywords ∧ occurs_in keyword (lower prompt)) →
  let r := generate_image_mcp gt prompt ar q fmt in
  let r' := generate_image_mcp gt' prompt' ar' q' fmt' in
  ir_success r = true ∧ ir_success r' = true
  ∧ is_Some (ir_url r) ∧ ir_url r = ir_url r'.
Proof.
  intros Ha Ha' Heq (keyword & Hin & Hocc) r r'.
  assert (Hlow : lower prompt' = lower prompt)
    by by rewrite !lower_ascii, Heq.
  destruct (first_match sample_images (lower prompt))
    as (pre & kw & url & post & Htable & Hpre & Hkw).
  { unfold keywords in Hin.
    apply list_elem_of_fmap in Hin as ([k u] & -> & Hin). eauto. }
  subst r r'.
  rewrite (generate_image_mcp_first_keyword gt prompt ar q fmt
             _ _ _ _ Htable Hpre Hkw).
  rewrite <- Hlow in Hpre, Hkw.
  rewrite (generate_image_mcp_first_keyword gt' prompt' ar' q' fmt'
             _ _ _ _ Htable Hpre Hkw).
  cbn [ir_success ir_url]. eauto.
Qed.

(** X3. Every URL of the table can be selected by the hash fallback: for
    each one there is a prompt without any known keyword for which the
    classifier returns it. *)
Theorem fallback_reaches_every_table_url
    generation_time aspect_ratio quality output_format image_url :
  image_url ∈ image_list →
  ∃ prompt,
    (∀ keyword, keyword ∈ keywords → ¬ occurs_in keyword (lower prompt))
    ∧ ir_url (generate_image_mcp generation_time prompt aspect_ratio quality
                output_format) = Some image_url.
Proof.
  intros [i Hi]%list_elem_of_lookup.
  assert (Hlt : (i < 10)%nat).
  { apply lookup_lt_Some in Hi. by rewrite image_list_length in Hi. }
  destruct i as [|[|[|[|[|[|[|[|[|[|i]]]]]]]]]]; [..|lia];
    vm_compute in Hi; injection Hi as <-;
    [ exists (pystr "calm lake 10") | exists (pystr "calm lake 3")
    | exists (pystr "calm lake 1") | exists (pystr "calm lake 7")
    | exists (pystr "calm lake 11") | exists (pystr "calm lake 12")
    | exists (pystr "calm lake 21") | exists (pystr "calm lake 2")
    | exists (pystr "calm lake 36") | exists (pystr "calm lake 0") ];
    (split; [apply no_keyword_in_spec; by vm_compute | by vm_compute]).
Qed.

(** ** Further properties of [generate_wallpaper] *)

Lemma keyword_in_enhanced_request request keyword :
  keyword ∈ keywords →
  occurs_in keyword (lower (enhanced_prompt_of request))
  ↔ keyword_in_request keyword request.
Proof. apply keyword_in_enhanced. Qed.

(** X4. When a known keyword occurs in the lower-cased prompt, style or
    aspect ratio of a request, the URL of the response is the one of the
    first table entry, in declaration order, whose keyword occurs in one of
    these three fields; the response is a failure only if storing the
    record raises. *)
Theorem first_keyword_of_request env w request :
  (∃ keyword, keyword ∈ keywords ∧ keyword_in_request keyword request) →
  ∃ pre keyword image_url post,
    sample_images = pre ++ (keyword, image_url) :: post
    ∧ Forall (λ kv, ¬ keyword_in_request kv.1 request) pre
    ∧ keyword_in_request keyword request
    ∧ let '(w', r) := generate_wallpaper env w request in
      ∃ body,
        r = Http200 body
        ∧ ((resp_success body = true ∧ resp_wallpaper_url body = image_url)
           ∨ (∃ e, env_insert_one env = Raise e
                   ∧ resp_success body = false)).
Proof.
  intros (keyword & Hin & Hocc).
  destruct (first_match sample_images (lower (enhanced_prompt_of request)))
    as (pre & kw & url & post & Htable & Hpre & Hkw).
  { unfold keywords in Hin.
    apply list_elem_of_fmap in Hin as ([k u] & -> & Hin).
    exists (k, u). split; [done|].
    apply keyword_in_enhanced_request; [|done].
    unfold keywords. apply list_elem_of_fmap. by exists (k, u). }
  assert (Hsel : select_image (enhanced_prompt_of request) = Ok url)
    by by apply (select_image_keyword _ pre kw url post).
  exists pre, kw, url, post. split; [done|]. split; [|split].
  - rewrite Forall_forall in Hpre |- *. intros [k u] Hk Hreq.
    apply (Hpre (k, u) Hk). apply keyword_in_enhanced_request; [|done].
    unfold keywords. rewrite Htable, fmap_app. apply elem_of_app. left.
    apply list_elem_of_fmap. by exists (k, u).
  - apply keyword_in_enhanced_request; [|done].
    unfold keywords. rewrite Htable, fmap_app. apply elem_of_app. right. left.
  - destruct (generate_wallpaper_outcome env w request)
      as (w' & body & -> & Hout).
    exists body. split; [done|].
    destruct Hout as [e He | selected e _ Hins | selected oid Hs _].
    + congruence.
    + right. eauto.
    + left. split; [done|]. cbn [resp_wallpaper_url]. congruence.
Qed.


(** X6. The record stored by a successful request has exactly the keys
    _id, id, prompt, enhanced_prompt, style, aspect_ratio, quality,
    wallpaper_url, timestamp and metadata. It keeps the quality of the
    request as it was sent, while its metadata holds the quality token that
    was passed to the classifier; its URL is the one of the response and
    its timestamp the clock reading of the handler. *)
Theorem stored_record_fields env w request :
  let '(w', r) := generate_wallpaper env w request in
  ∀ body, r = Http200 body → resp_success body = true →
  ∃ record metadata,
    wallpapers w' = wallpapers w ++ [record]
    ∧ dom record
      = list_to_set ["_id"; "id"; "prompt"; "enhanced_prompt"; "style";
                     "aspect_ratio"; "quality"; "wallpaper_url";
                     "timestamp"; "metadata"]
    ∧ (∃ oid, env_insert_one env = Ok oid
              ∧ record !! "_id" = Some (VObjectId oid))
    ∧ record !! "id" = Some (VStr (env_uuid4 env))
    ∧ record !! "prompt" = Some (VStr (req_prompt request))
    ∧ record !! "enhanced_prompt" = Some (VStr (enhanced_prompt_of request))
    ∧ record !! "style" = Some (VStr (req_style request))
    ∧ record !! "aspect_ratio" = Some (VStr (req_aspect_ratio request))
    ∧ record !! "quality" = Some (VStr (req_quality request))
    ∧ record !! "wallpaper_url" = Some (VStr (resp_wallpaper_url body))
    ∧ record !! "timestamp" = Some (VDatetime (env_utcnow env))
    ∧ record !! "metadata" = Some (VDict metadata)
    ∧ metadata = resp_metadata body
    ∧ metadata !! "quality" = Some (quality_token request).
Proof.
  destruct (generate_wallpaper_outcome env w request)
    as (w' & body & -> & Hout).
  intros body' [= <-].
  destruct Hout as [e Hsel | selected e Hsel Hins | selected oid Hsel Hins];
    cbn [resp_success failure_response]; [done | done | intros _].
  eexists _, _. split; [reflexivity|].
  cbn [resp_wallpaper_url resp_metadata].
  split; [unfold stored_record; by rewrite !dom_insert_L, dom_empty_L|].
  split; [exists oid; split; [done|]; unfold stored_record; by simplify_map_eq|].
  unfold stored_record, classifier_metadata.
  repeat split; by simplify_map_eq.
Qed.

Lemma generate_wallpaper_prefix env w request :
  wallpapers w `prefix_of` wallpapers (generate_wallpaper env w request).1
  ∧ (length (wallpapers (generate_wallpaper env w request).1)
     ≤ S (length (wallpapers w)))%nat.
Proof.
  destruct (generate_wallpaper_outcome env w request)
    as (w' & body & -> & Hout). cbn [fst].
  destruct Hout; cbn [wallpapers]; (split; [|rewrite ?length_app; simpl; lia]).
  - done.
  - done.
  - by apply prefix_app_r.
Qed.

(** X7. The collection is append-only under the handler: after any
    sequence of requests the old collection is a prefix of the new one, so
    no stored record was changed, moved or removed, and at most one record
    per request was added. *)
Theorem wallpapers_append_only w runs :
  wallpapers w `prefix_of` wallpapers (serve w runs)
  ∧ (length (wallpapers (serve w runs))
     ≤ length (wallpapers w) + length runs)%nat.
Proof.
  revert w. induction runs as [|[env request] runs IH]; intros w; simpl.
  - split; [done | lia].
  - destruct (generate_wallpaper_prefix env w request) as [Hp Hl].
    destruct (IH (generate_wallpaper env w request).1) as [Hp' Hl'].
    split; [by etrans | lia].
Qed.

(** ** Further properties of [get_wallpaper_history] *)

(** X8. The listing returns the newest records: the collection splits into
    the records that are listed and the others, and every listed record is
    at least as new as every record that is left out. When the collection
    holds more than 50 records exactly 50 are listed. *)
Theorem history_lists_the_newest w :
  ∃ body found rest,
    get_wallpaper_history None w = Http200 body
    ∧ hist_wallpapers body = strip_id <$> found
    ∧ wallpapers w ≡ₚ found ++ rest
    ∧ (∀ a b, a ∈ found → b ∈ rest → newer_or_equal a b)
    ∧ (rest ≠ [] → length found = 50%nat).
Proof.
  unfold get_wallpaper_history. rewrite bind_Ok.
  cbn [try_except fastapi_route]. unfold find_sorted_limit.
  set (sorted := merge_sort newer_or_equal (wallpapers w)).
  eexists _, (take 50 sorted), (drop 50 sorted).
  split; [reflexivity|]. cbn [hist_wallpapers]. split; [done|].
  split; [by rewrite take_drop; unfold sorted;
          rewrite merge_sort_Permutation|].
  split.
  - intros a b. apply StronglySorted_app_1_elem_of. rewrite take_drop.
    apply StronglySorted_merge_sort; apply _.
  - intros Hrest. rewrite length_take.
    destruct (decide (length sorted ≤ 50)%nat) as [Hle | Hgt]; [|lia].
    destruct Hrest. by apply drop_ge.
Qed.

Lemma history_small_listing w :
  (length (wallpapers w) ≤ 50)%nat →
  ∃ body,
    get_wallpaper_history None w = Http200 body
    ∧ hist_wallpapers body ≡ₚ delete "_id" <$> wallpapers w
    ∧ hist_count body = Some (length (wallpapers w)).
Proof.
  intros Hlen. unfold get_wallpaper_history. rewrite bind_Ok.
  cbn [try_except fastapi_route]. eexists. split; [reflexivity|].
  cbn [hist_wallpapers hist_count]. unfold find_sorted_limit.
  pose proof (merge_sort_Permutation newer_or_equal (wallpapers w)) as Hperm.
  rewrite take_ge by (by rewrite (Permutation_length Hperm)).
  split.
  - rewrite Hperm. apply eq_subrelation; [apply _|].
    apply list_fmap_ext. intros i d _. apply strip_id_delete.
  - by rewrite length_fmap, (Permutation_length Hperm).
Qed.


(** X10. Store, then list: while the collection holds at most 50 records,
    the record of a successful request is in the next listing, without its
    ["_id"], with the prompt of the request, the URL of the response and
    the identifier drawn for it. *)
Theorem stored_wallpaper_is_listed env w request :
  let '(w', r) := generate_wallpaper env w request in
  ∀ body, r = Http200 body → resp_success body = true →
  (length (wallpapers w') ≤ 50)%nat →
  ∃ listing d,
    get_wallpaper_history None w' = Http200 listing
    ∧ hist_success listing = true
    ∧ d ∈ hist_wallpapers listing
    ∧ d !! "_id" = None
    ∧ d !! "id" = Some (VStr (env_uuid4 env))
    ∧ d !! "prompt" = Some (VStr (req_prompt request))
    ∧ d !! "wallpaper_url" = Some (VStr (resp_wallpaper_url body)).
Proof.
  destruct (generate_wallpaper_outcome env w request)
    as (w' & body & -> & Hout).
  intros body' [= <-].
  destruct Hout as [e Hsel | selected e Hsel Hins | selected oid Hsel Hins];
    cbn [resp_success failure_response]; [done | done | intros _ Hlen].
  destruct (history_small_listing _ Hlen) as (listing & Heq & Hperm & _).
  exists listing, (delete "_id" (stored_record env request selected
    (classifier_metadata (env_generation_time env)
       (enhanced_prompt_of request) (req_aspect_ratio request)
       (quality_token request) (pystr "webp")) oid)).
  split; [done|]. split.
  { unfold get_wallpaper_history in Heq. rewrite bind_Ok in Heq.
    cbn [try_except fastapi_route] in Heq. by injection Heq as <-. }
  split.
  { rewrite Hperm. apply list_elem_of_fmap_2. cbn [wallpapers].
    apply elem_of_app. right. left. }
  cbn [resp_wallpaper_url]. unfold stored_record.
  repeat split; by simplify_map_eq.
Qed.

(** ** Further properties of [chat_with_agent] *)

Lemma chat_with_agent_fst eng g request :
  (chat_with_agent eng g request).1
  = match init_agents eng g request with
    | Ok g1 => g1
    | Raise _ => g
    end.
Proof. unfold chat_with_agent. by destruct (init_agents eng g request). Qed.

Lemma init_agents_existing eng g request agent :
  select_agent g request = Some agent → init_agents eng g request = Ok g.
Proof.
  unfold select_agent, init_agents.
  destruct (str_eqb (chat_agent_type request) (pystr "search")) eqn:Hs;
    intros Hsel; cbn [andb].
  - rewrite bool_decide_eq_false_2 by by rewrite Hsel.
    apply str_eqb_true in Hs. rewrite Hs.
    assert (str_eqb (pystr "search") (pystr "chat") = false) as ->
      by by apply str_eqb_false.
    done.
  - rewrite (bool_decide_eq_false_2 (chat_agent g = None))
      by by rewrite Hsel.
    by rewrite andb_false_r.
Qed.


(** X12. An agent, once created, is never replaced or dropped: after any
    request each global that held an agent holds the same one, and a
    request can only fill the global of its own agent type. *)
Theorem agents_are_kept eng g request :
  let g' := (chat_with_agent eng g request).1 in
  (∀ a, search_agent g = Some a → search_agent g' = Some a)
  ∧ (∀ a, chat_agent g = Some a → chat_agent g' = Some a)
  ∧ (chat_agent_type request ≠ pystr "search" →
       search_agent g' = search_agent g)
  ∧ (chat_agent_type request ≠ pystr "chat" →
       chat_agent g' = chat_agent g).
Proof.
  cbn zeta. rewrite chat_with_agent_fst. unfold init_agents.
  destruct (str_eqb (chat_agent_type request) (pystr "search")) eqn:Hs;
    [apply str_eqb_true in Hs | apply str_eqb_false in Hs].
  - destruct (search_agent g) as [s|] eqn:Hsg.
    + rewrite bool_decide_eq_false_2 by done. cbn [andb].
      assert (str_eqb (chat_agent_type request) (pystr "chat") = false) as ->.
      { apply str_eqb_false. rewrite Hs. by vm_compute. }
      cbn [andb]. by rewrite Hsg.
    + rewrite bool_decide_eq_true_2 by done. cbn [andb].
      destruct (SearchAgent eng) as [a|e]; cbn; by rewrite ?Hsg.
  - cbn [andb].
    destruct (str_eqb (chat_agent_type request) (pystr "chat")) eqn:Hc;
      [apply str_eqb_true in Hc | done].
    destruct (chat_agent g) as [c|] eqn:Hcg.
    + rewrite bool_decide_eq_false_2 by done. cbn [andb]. by rewrite Hcg.
    + rewrite bool_decide_eq_true_2 by done. cbn [andb].
      destruct (ChatAgent eng) as [a|e]; cbn; by rewrite ?Hcg.
Qed.

(** X13. When the agent a request selects exists already, no constructor
    matters: the globals stay as they are, and the answer is the same for
    any two agent libraries that agree on [execute] and on
    [get_capabilities]. This holds as well for an agent type other than
    "search" and "chat", which selects the chat agent. *)
Theorem existing_agent_is_reused eng eng' g request agent :
  select_agent g request = Some agent →
  execute eng = execute eng' →
  get_capabilities eng = get_capabilities eng' →
  (chat_with_agent eng g request).1 = g
  ∧ chat_with_agent eng g request = chat_with_agent eng' g request
  ∧ (chat_agent_type request ≠ pystr "search" → chat_agent g = Some agent).
Proof.
  intros Hsel Hex Hcap. unfold chat_with_agent, run_agent.
  rewrite !(init_agents_existing _ _ _ _ Hsel), Hex, Hcap.
  split; [done|]. split; [done|].
  intros Hs%str_eqb_false. unfold select_agent in Hsel. by rewrite Hs in Hsel.
Qed.

(** X14. An agent is created once: after a request for which the needed
    agent exists or was constructed, every later request of the same agent
    type, with whatever agent library, selects that agent and leaves the
    globals unchanged, even if the first request went on to fail. *)
Theorem agent_is_created_once eng eng' g g1 request request' agent :
  init_agents eng g request = Ok g1 →
  select_agent g1 request = Some agent →
  chat_agent_type request' = chat_agent_type request →
  (chat_with_agent eng g request).1 = g1
  ∧ select_agent g1 request' = Some agent
  ∧ (chat_with_agent eng' g1 request').1 = g1.
Proof.
  intros Hinit Hsel Hty.
  assert (Hsel' : select_agent g1 request' = Some agent)
    by (unfold select_agent in *; by rewrite Hty).
  rewrite !chat_with_agent_fst, Hinit.
  by rewrite (init_agents_existing _ _ _ _ Hsel').
Qed.

(** ** The status endpoints *)


Lemma validate_status_cases parse_datetime default_id default_timestamp d :
  (∃ status_obj,
     validate_status parse_datetime default_id default_timestamp d
     = Ok status_obj
     ∧ ∃ name, d !! "client_name" = Some (VStr name)
               ∧ sc_client_name status_obj = name)
  ∨ (∃ field,
       validate_status parse_datetime default_id default_timestamp d
       = Raise (ValueError field)).
Proof.
  unfold validate_status.
  assert (Hok : ∀ a b c,
            d !! "client_name" = Some (VStr b) →
            (∃ status_obj,
               Ok {| sc_id := a; sc_client_name := b; sc_timestamp := c |}
               = Ok status_obj
               ∧ ∃ name, d !! "client_name" = Some (VStr name)
                         ∧ sc_client_name status_obj = name)
            ∨ (∃ field,
                 Ok {| sc_id := a; sc_client_name := b; sc_timestamp := c |}
                 = Raise (ValueError field))).
  { intros a b c Hb. left. eexists. split; [done|]. by exists b. }
  destruct (d !! "id") as [[]|]; rewrite ?bind_Ok, ?bind_Raise; eauto;
    (destruct (d !! "client_name") as [[]|];
     rewrite ?bind_Ok, ?bind_Raise; eauto);
    (destruct (d !! "timestamp") as [[text| | |]|];
     rewrite ?bind_Ok, ?bind_Raise; eauto;
     try (destruct (parse_datetime text);
          rewrite ?bind_Ok, ?bind_Raise; eauto)).
Qed.

Lemma validate_statuses_cases parse_datetime lenv i docs :
  (∃ objs, validate_statuses parse_datetime lenv i docs = Ok objs
           ∧ Forall2 (λ d obj, d !! "client_name"
                               = Some (VStr (sc_client_name obj))) docs objs)
  ∨ (∃ field, validate_statuses parse_datetime lenv i docs
              = Raise (ValueError field)).
Proof.
  revert i. induction docs as [|d docs IH]; intros i; simpl.
  - left. exists []. by split.
  - destruct (validate_status_cases parse_datetime (ls_uuid4 lenv i)
                (ls_utcnow lenv i) d)
      as [(obj & -> & name & Hname & Hobj) | (field & ->)];
      [|right; by exists field].
    rewrite bind_Ok.
    destruct (IH (S i)) as [(objs & -> & HF) | (field & ->)];
      [|right; by exists field].
    left. exists (obj :: objs). split; [done|].
    constructor; [by rewrite Hobj | done].
Qed.



(** X15. POST /status has no failure body. When the store accepts the
    document, the answer is HTTP 200 with the new status check, and the
    collection has grown by one document that holds its id, client name and
    timestamp under the storage identifier; when [insert_one] raises, the
    collection is unchanged and the answer is an HTTP error, with status
    500 unless the exception is an [HTTPException]. *)
Theorem status_create_stores_or_errors env coll input :
  let '(coll', r) := create_status_check env coll input in
  match st_insert_one env with
  | Ok oid =>
      r = Http200 (status_of (env, input))
      ∧ ∃ record,
          coll' = coll ++ [record]
          ∧ dom record = list_to_set ["_id"; "id"; "client_name"; "timestamp"]
          ∧ record !! "_id" = Some (VObjectId oid)
          ∧ record !! "id" = Some (VStr (st_uuid4 env))
          ∧ record !! "client_name" = Some (VStr (scc_client_name input))
          ∧ record !! "timestamp" = Some (VDatetime (st_utcnow env))
  | Raise e =>
      coll' = coll
      ∧ ∃ status detail,
          r = HttpError status detail
          ∧ ((∀ code text, e ≠ HTTPException code text) → status = 500)
  end.
Proof.
  unfold create_status_check.
  destruct (st_insert_one env) as [oid|e].
  - split; [done|]. eexists. split; [done|]. unfold status_dict.
    cbn [sc_id sc_client_name sc_timestamp].
    split; [by rewrite !dom_insert_L, dom_empty_L|].
    repeat split; by simplify_map_eq.
  - split; [done|]. destruct e; cbn [fastapi_route]; eexists _, _;
      (split; [reflexivity|]); try done.
    intros H. by destruct (H status_code detail).
Qed.


(** X17. GET /status validates every listed document: when one of the
    first 1000 documents has no client name, or one that is not a string,
    the whole listing is lost and the answer is HTTP 500; documents after
    the first 1000 are never looked at. When the answer is a listing, it
    has one status check per listed document, with the client name of that
    document. *)
Theorem status_listing_all_or_nothing parse_datetime lenv coll :
  get_status_checks parse_datetime lenv None coll
  = get_status_checks parse_datetime lenv None (take 1000 coll)
  ∧ ((∃ d, d ∈ take 1000 coll
           ∧ ∀ name, d !! "client_name" ≠ Some (VStr name)) →
       get_status_checks parse_datetime lenv None coll
       = HttpError 500 (pystr "Internal Server Error"))
  ∧ (∀ objs, get_status_checks parse_datetime lenv None coll = Http200 objs →
       Forall2 (λ d obj, d !! "client_name"
                         = Some (VStr (sc_client_name obj)))
         (take 1000 coll) objs).
Proof.
  unfold get_status_checks. rewrite !bind_Ok, take_take, Nat.min_id.
  split; [done|].
  destruct (validate_statuses_cases parse_datetime lenv 0 (take 1000 coll))
    as [(objs & -> & HF) | (field & ->)]; cbn [fastapi_route].
  - split; [|by intros objs' [= <-]].
    intros (d & Hin & Hname). exfalso.
    apply list_elem_of_lookup in Hin as [i Hi].
    destruct (Forall2_lookup_l _ _ _ _ _ HF Hi) as (obj & _ & Hd).
    by apply (Hname (sc_client_name obj)).
  - split; [done|]. by intros objs.
Qed.

(** ** The search and capabilities endpoints *)

Lemma init_search_agent_cases {meta} (seng : search_engine meta) g :
  match init_search_agent seng g with
  | Ok (g1, agent) =>
      search_agent g1 = Some agent ∧ chat_agent g1 = chat_agent g
      ∧ (∀ a, search_agent g = Some a → a = agent ∧ g1 = g)
      ∧ (search_agent g = None → se_SearchAgent seng = Ok agent)
  | Raise e => search_agent g = None ∧ se_SearchAgent seng = Raise e
  end.
Proof.
  unfold init_search_agent. destruct g as [[s|] c]; cbn.
  - split; [done|]. split; [done|]. split; [|done].
    by intros a [= ->].
  - destruct (se_SearchAgent seng); cbn; by repeat split.
Qed.



(** X20. The search agent is one object for both endpoints. The search
    endpoint fills the global only when it is empty and never touches the
    chat agent; the agent it used is the one a later chat request of type
    "search" selects, without constructing anything; and an agent created
    by such a chat request is the one the search endpoint then uses. *)
Theorem search_agent_is_shared {meta} (seng : search_engine meta) eng g
    request chat_request :
  chat_agent_type chat_request = pystr "search" →
  let g' := (search_and_summarize seng g request).1 in
  chat_agent g' = chat_agent g
  ∧ (∀ a, search_agent g = Some a → g' = g)
  ∧ (∀ g1 agent, init_search_agent seng g = Ok (g1, agent) →
       g' = g1
       ∧ select_agent g1 chat_request = Some agent
       ∧ init_agents eng g1 chat_request = Ok g1)
  ∧ (∀ g2 agent, init_agents eng g chat_request = Ok g2 →
       select_agent g2 chat_request = Some agent →
       init_search_agent seng g2 = Ok (g2, agent)).
Proof.
  intros Hty. cbn zeta. unfold search_and_summarize.
  pose proof (init_search_agent_cases seng g) as Hinit.
  assert (Hsel : ∀ g0, select_agent g0 chat_request = search_agent g0).
  { intros g0. unfold select_agent. by rewrite Hty, str_eqb_refl. }
  split; [|split; [|split]].
  - destruct (init_search_agent seng g) as [[g1 agent]|e]; [|done].
    by destruct Hinit as (_ & Hc & _).
  - intros a Ha. destruct (init_search_agent seng g) as [[g1 agent]|e].
    + destruct Hinit as (_ & _ & Hsame & _). by destruct (Hsame a Ha).
    + destruct Hinit as [Hnone _]. congruence.
  - intros g1 agent Heq. rewrite Heq in Hinit |- *.
    destruct Hinit as (Hagent & _). split; [done|].
    rewrite Hsel. split; [done|].
    apply (init_agents_existing eng g1 chat_request agent). by rewrite Hsel.
  - intros g2 agent _ Hs. rewrite Hsel in Hs.
    unfold init_search_agent. by rewrite Hs.
Qed.

(** X21. The capabilities endpoint always answers HTTP 200. It reports
    success exactly when both constructors and both capability queries
    return, and then lists the capabilities of the search agent and of the
    chat agent under their names; the search agent is built and queried
    first, so an exception of its constructor is the one reported, whatever
    the chat agent would have done. *)
Theorem capabilities_all_or_error eng :
  ∃ body,
    get_agent_capabilities eng = Http200 body
    ∧ (cap_success body = true ↔
         ∃ search search_caps chat chat_caps,
           SearchAgent eng = Ok search
           ∧ get_capabilities eng search = Ok search_caps
           ∧ ChatAgent eng = Ok chat
           ∧ get_capabilities eng chat = Ok chat_caps
           ∧ cap_capabilities body
             = Some (<["search_agent" := search_caps]>
                     (<["chat_agent" := chat_caps]> ∅)))
    ∧ (cap_success body = false ↔ is_Some (cap_error body))
    ∧ (∀ e, SearchAgent eng = Raise e →
         cap_error body = Some (exn_str e) ∧ cap_capabilities body = None).
Proof.
  unfold get_agent_capabilities.
  destruct (SearchAgent eng) as [s|e] eqn:Hs.
  2: { eexists. split; [reflexivity|]. cbn. split; [|split].
       - split; [done | by intros (? & ? & ? & ? & ? & _)].
       - split; [eauto | done].
       - by intros e' [= ->]. }
  rewrite bind_Ok. destruct (get_capabilities eng s) as [sc|e] eqn:Hsc.
  2: { eexists. split; [reflexivity|]. cbn. split; [|split].
       - split; [done|]. intros (s' & sc' & ? & ? & [= <-] & Hsc' & _).
         congruence.
       - split; [eauto | done].
       - done. }
  rewrite bind_Ok. destruct (ChatAgent eng) as [c|e] eqn:Hc.
  2: { eexists. split; [reflexivity|]. cbn. split; [|split].
       - split; [done | by intros (? & ? & ? & ? & _ & _ & ? & _)].
       - split; [eauto | done].
       - done. }
  rewrite bind_Ok. destruct (get_capabilities eng c) as [cc|e] eqn:Hcc.
  2: { eexists. split; [reflexivity|]. cbn. split; [|split].
       - split; [done|].
         intros (s' & sc' & c' & cc' & _ & _ & [= <-] & Hcc' & _). congruence.
       - split; [eauto | done].
       - done. }
  eexists. split; [reflexivity|]. cbn. split; [|split].
  - split; [intros _ | done]. by exists s, sc, c, cc.
  - split; [done | by intros [? ?]].
  - done.
Qed.

(** ** Failure and success of wallpaper requests, over whole runs *)




Lemma serve_successes w runs :
  length (wallpapers (serve w runs))
  = (length (wallpapers w) + successes w runs)%nat.
Proof.
  revert w. induction runs as [|[env request] runs IH]; intros w; simpl.
  - lia.
  - destruct (generate_wallpaper_outcome env w request)
      as (w' & body & Heq & Hout).
    rewrite Heq. cbn [fst]. rewrite IH.
    destruct Hout; cbn [wallpapers resp_success failure_response];
      rewrite ?length_app; simpl; lia.
Qed.

(** X23. Over any sequence of requests the collection grows by exactly the
    number of requests answered with success; and after N successes on a
    store that started empty, the history lists min(N, 50) records and
    reports that count. *)
Theorem history_after_successes w runs :
  length (wallpapers (serve w runs))
  = (length (wallpapers w) + successes w runs)%nat
  ∧ ∃ listing,
      get_wallpaper_history None (serve empty_world runs) = Http200 listing
      ∧ hist_success listing = true
      ∧ length (hist_wallpapers listing)
        = (successes empty_world runs `min` 50)%nat
      ∧ hist_count listing = Some (successes empty_world runs `min` 50)%nat.
Proof.
  split; [apply serve_successes|].
  unfold get_wallpaper_history. rewrite bind_Ok.
  cbn [try_except fastapi_route]. eexists. split; [reflexivity|].
  cbn [hist_success hist_wallpapers hist_count].
  rewrite length_fmap, find_sorted_limit_length, serve_successes.
  done.
Qed.

End Backend.

(** * The properties on concrete requests *)

(** C1 at "Abstract MOUNTAINS at dusk": "mountains" is declared before
    "abstract" and wins, although "abstract" comes first in the prompt. *)
Lemma first_keyword_in_declaration_order_witness :
  let prompt := pystr "Abstract MOUNTAINS at dusk" in
  let r :=
    generate_image_mcp ascii_to_lower_full never_final_sigma
      plain_runtime_text (pystr "2025-01-01T00:00:00") prompt (pystr "9:16")
      (pystr "1") (pystr "webp") in
  occurs_in (pystr "abstract")
    (lower ascii_to_lower_full never_final_sigma prompt)
  ∧ (∃ pre keyword image_url post,
       sample_images = pre ++ (keyword, image_url) :: post
       ∧ Forall (λ kv, ¬ occurs_in kv.1
                           (lower ascii_to_lower_full never_final_sigma prompt))
           pre
       ∧ occurs_in keyword
           (lower ascii_to_lower_full never_final_sigma prompt)
       ∧ ir_success r = true
       ∧ ir_url r = Some image_url)
  ∧ ir_url r = Some (pystr "https://images.unsplash.com/photo-1464822759844-d150bb1e7ead?w=400&h=711&fit=crop&crop=center").
Proof.
  intros prompt r.
  assert (Hocc : occurs_in (pystr "abstract")
                   (lower ascii_to_lower_full never_final_sigma prompt))
    by (apply str_in_spec; by vm_compute).
  split; [exact Hocc|]. split; [|by vm_compute].
  apply (first_keyword_in_declaration_order ascii_to_lower_full
           never_final_sigma plain_runtime_text (pystr "2025-01-01T00:00:00")
           prompt (pystr "9:16") (pystr "1") (pystr "webp")).
  exists (pystr "abstract"). split; [|exact Hocc].
  apply list_elem_of_lookup. exists 2%nat. reflexivity.
Defined.

(** C2 (as stated) fails on a prompt that is a lone surrogate: no keyword
    occurs in it, and the classifier returns a failure without URL. *)
Lemma hash_fallback_fails_on_lone_surrogate :
  let prompt := [0xD800] in
  let r :=
    generate_image_mcp ascii_to_lower_full never_final_sigma
      plain_runtime_text (pystr "2025-01-01T00:00:00") prompt (pystr "9:16")
      (pystr "1") (pystr "webp") in
  (∀ keyword, keyword ∈ keywords →
     ¬ occurs_in keyword (lower ascii_to_lower_full never_final_sigma prompt))
  ∧ Utf8.encode prompt = Raise (UnicodeEncodeError prompt 0)
  ∧ ir_success r = false
  ∧ ir_url r = None.
Proof.
  intros prompt r. split; [apply no_keyword_in_spec; by vm_compute|].
  by vm_compute.
Qed.

(** C2 (as amended) at "xyz123 completely unrelated text": the digest
    starts with e9d39bae, and 0xe9d39bae mod 10 = 8. *)
Lemma hash_fallback_when_no_keyword_witness :
  let prompt := pystr "xyz123 completely unrelated text" in
  let r :=
    generate_image_mcp ascii_to_lower_full never_final_sigma
      plain_runtime_text (pystr "2025-01-01T00:00:00") prompt (pystr "9:16")
      (pystr "1") (pystr "webp") in
  (∀ keyword, keyword ∈ keywords →
     ¬ occurs_in keyword (lower ascii_to_lower_full never_final_sigma prompt))
  ∧ int16 (take 8 (hexdigest prompt)) = Ok 0xe9d39bae
  ∧ ir_success r = true
  ∧ ir_url r = image_list !! 8%nat.
Proof.
  intros prompt r.
  assert (Hnone : ∀ keyword, keyword ∈ keywords →
            ¬ occurs_in keyword
                (lower ascii_to_lower_full never_final_sigma prompt))
    by (apply no_keyword_in_spec; by vm_compute).
  split; [exact Hnone|].
  destruct (hash_fallback_when_no_keyword ascii_to_lower_full
              never_final_sigma plain_runtime_text
              (pystr "2025-01-01T00:00:00") prompt (pystr "9:16") (pystr "1")
              (pystr "webp") Hnone) as [Hfallback _].
  change (Utf8.encode prompt) with (Ok (A:=list N) prompt) in Hfallback.
  destruct Hfallback as (H & HH & Hs & _ & Hu).
  assert (Hval : int16 (take 8 (hexdigest prompt)) = Ok 0xe9d39bae)
    by by vm_compute.
  rewrite Hval in HH. injection HH as <-.
  split; [exact Hval|]. split; [exact Hs|]. exact Hu.
Defined.

(** C9 at "Sunset over mountains". *)
Lemma successful_url_is_table_value_witness :
  let r :=
    generate_image_mcp ascii_to_lower_full never_final_sigma
      plain_runtime_text (pystr "2025-01-01T00:00:00")
      (pystr "Sunset over mountains") (pystr "9:16") (pystr "1")
      (pystr "webp") in
  ir_success r = true
  ∧ ∃ selected, ir_url r = Some selected
                ∧ selected ∈ image_list
                ∧ selected ≠ default_image
                ∧ length image_list = 10%nat.
Proof.
  intros r. assert (Hs : ir_success r = true) by by vm_compute.
  split; [exact Hs|].
  exact (successful_url_is_table_value ascii_to_lower_full never_final_sigma
           plain_runtime_text (pystr "2025-01-01T00:00:00")
           (pystr "Sunset over mountains") (pystr "9:16") (pystr "1")
           (pystr "webp") Hs).
Defined.


(** C3 at agent type "image" on a fresh process: HTTP 200 with a failure
    body. *)
Lemma agent_not_initialized_answers_200_witness :
  let request := {| chat_message := pystr "hi";
                    chat_agent_type := pystr "image" |} in
  ∃ body,
    chat_with_agent plain_runtime_text engine_up (Agents None None) request
    = (Agents None None, Http200 body)
    ∧ cresp_success body = false
    ∧ cresp_error body = Some (pystr "Failed to initialize agent").
Proof.
  intros request.
  destruct (agent_not_initialized_answers_200 plain_runtime_text engine_up
              (Agents None None) request) as [_ Heq].
  - by vm_compute.
  - by vm_compute.
  - reflexivity.
  - eexists. split; [exact Heq|]. split; reflexivity.
Defined.





(** * The further properties on concrete requests *)

(** X2 at "SUNSET beach" and "sunset BEACH". *)
Lemma ascii_case_does_not_change_keyword_url_witness :
  let prompt := pystr "SUNSET beach" in
  let prompt' := pystr "sunset BEACH" in
  let r :=
    generate_image_mcp ascii_to_lower_full never_final_sigma
      plain_runtime_text [] prompt (pystr "9:16") (pystr "1") (pystr "webp") in
  let r' :=
    generate_image_mcp ascii_to_lower_full never_final_sigma
      plain_runtime_text [] prompt' (pystr "16:9") (pystr "0.25")
      (pystr "webp") in
  prompt ≠ prompt'
  ∧ ir_success r = true ∧ ir_success r' = true
  ∧ is_Some (ir_url r) ∧ ir_url r = ir_url r'.
Proof.
  intros prompt prompt' r r'. split; [by vm_compute|].
  apply (ascii_case_does_not_change_keyword_url ascii_to_lower_full
           never_final_sigma plain_runtime_text).
  - reflexivity.
  - reflexivity.
  - reflexivity.
  - exists (pystr "sunset").
    split; [apply list_elem_of_lookup; by exists 0%nat|].
    apply str_in_spec. by vm_compute.
Defined.

(** X3 at the URL of "space". *)
Lemma fallback_reaches_every_table_url_witness :
  let image_url := pystr "https://images.unsplash.com/photo-1446776877081-d282a0f896e2?w=400&h=711&fit=crop&crop=center" in
  image_url ∈ image_list
  ∧ ∃ prompt,
      (∀ keyword, keyword ∈ keywords →
         ¬ occurs_in keyword
             (lower ascii_to_lower_full never_final_sigma prompt))
      ∧ ir_url (generate_image_mcp ascii_to_lower_full never_final_sigma
                  plain_runtime_text [] prompt (pystr "9:16") (pystr "1")
                  (pystr "webp")) = Some image_url.
Proof.
  intros image_url.
  assert (Hin : image_url ∈ image_list)
    by (apply list_elem_of_lookup; by exists 9%nat).
  split; [exact Hin|].
  exact (fallback_reaches_every_table_url ascii_to_lower_full
           never_final_sigma plain_runtime_text [] (pystr "9:16") (pystr "1")
           (pystr "webp") image_url Hin).
Defined.

(** X4 at style "nature" with aspect ratio "sunset": the first keyword of
    the three fields is "sunset". *)
Lemma first_keyword_of_request_witness :
  let request := request_of "calm lake at dawn" "nature" "sunset" "high" in
  (∀ c, c < 128 → ascii_to_lower_full c = [ascii_lower c])
  ∧ keyword_in_request ascii_to_lower_full never_final_sigma
      (pystr "nature") request
  ∧ ∃ pre keyword image_url post,
      sample_images = pre ++ (keyword, image_url) :: post
      ∧ Forall (λ kv, ¬ keyword_in_request ascii_to_lower_full
                          never_final_sigma kv.1 request) pre
      ∧ keyword_in_request ascii_to_lower_full never_final_sigma keyword
          request
      ∧ let '(w', r) :=
          generate_wallpaper ascii_to_lower_full never_final_sigma
            plain_runtime_text (env_at 5 1) empty_world request in
        ∃ body,
          r = Http200 body
          ∧ ((resp_success body = true
              ∧ resp_wallpaper_url body = image_url)
             ∨ (∃ e, env_insert_one (env_at 5 1) = Raise e
                     ∧ resp_success body = false)).
Proof.
  intros request.
  assert (Hascii : ∀ c, c < 128 → ascii_to_lower_full c = [ascii_lower c])
    by (intros c _; reflexivity).
  assert (Hreq : keyword_in_request ascii_to_lower_full never_final_sigma
                   (pystr "nature") request).
  { right. left. apply str_in_spec. by vm_compute. }
  split; [exact Hascii|]. split; [exact Hreq|].
  apply (first_keyword_of_request ascii_to_lower_full never_final_sigma
           plain_runtime_text Hascii).
  exists (pystr "nature").
  split; [apply list_elem_of_lookup; by exists 4%nat | exact Hreq].
Defined.

(** X6 and X10 share one request: "Sunset over mountains" on an empty
    store. *)
Lemma stored_record_fields_witness :
  let request := request_of "Sunset over mountains" "modern" "9:16" "low" in
  let result :=
    generate_wallpaper ascii_to_lower_full never_final_sigma
      plain_runtime_text (env_at 5 1) empty_world request in
  ∃ body record metadata,
    result.2 = Http200 body
    ∧ resp_success body = true
    ∧ wallpapers result.1 = [record]
    ∧ record !! "quality" = Some (VStr (pystr "low"))
    ∧ record !! "metadata" = Some (VDict metadata)
    ∧ metadata !! "quality" = Some (pystr "0.25").
Proof.
  intros request result. subst result.
  pose proof (stored_record_fields ascii_to_lower_full never_final_sigma
                plain_runtime_text (env_at 5 1) empty_world request) as Hthm.
  destruct (generate_wallpaper_outcome ascii_to_lower_full never_final_sigma
              plain_runtime_text (env_at 5 1) empty_world request)
    as (w' & body & Heq & Hout).
  rewrite Heq in Hthm |- *.
  assert (Hs : resp_success body = true).
  { destruct Hout as [e Hsel | selected e Hsel Hins | selected oid Hsel Hins];
      [vm_compute in Hsel; discriminate Hsel | discriminate Hins
      | reflexivity]. }
  destruct (Hthm body eq_refl Hs)
    as (record & metadata & Hw & _ & _ & _ & _ & _ & _ & _ & Hq & _ & _
        & Hm & _ & Hmq).
  exists body, record, metadata. repeat split; assumption.
Defined.


(** X10 at "Sunset over mountains" on an empty store. *)
Lemma stored_wallpaper_is_listed_witness :
  let request := request_of "Sunset over mountains" "modern" "9:16" "low" in
  let result :=
    generate_wallpaper ascii_to_lower_full never_final_sigma
      plain_runtime_text (env_at 5 1) empty_world request in
  ∃ body listing d,
    result.2 = Http200 body
    ∧ resp_success body = true
    ∧ get_wallpaper_history plain_runtime_text None result.1
      = Http200 listing
    ∧ d ∈ hist_wallpapers listing
    ∧ d !! "_id" = None
    ∧ d !! "prompt" = Some (VStr (pystr "Sunset over mountains"))
    ∧ d !! "wallpaper_url" = Some (VStr (resp_wallpaper_url body)).
Proof.
  intros request result. subst result.
  pose proof (stored_wallpaper_is_listed ascii_to_lower_full
                never_final_sigma plain_runtime_text (env_at 5 1)
                empty_world request) as Hthm.
  destruct (generate_wallpaper_outcome ascii_to_lower_full never_final_sigma
              plain_runtime_text (env_at 5 1) empty_world request)
    as (w' & body & Heq & Hout).
  rewrite Heq in Hthm |- *.
  assert (Hs : resp_success body = true ∧ (length (wallpapers w') ≤ 50)%nat).
  { destruct Hout as [e Hsel | selected e Hsel Hins | selected oid Hsel Hins];
      [vm_compute in Hsel; discriminate Hsel | discriminate Hins
      | split; [reflexivity | simpl; lia]]. }
  destruct Hs as [Hs Hlen].
  destruct (Hthm body eq_refl Hs Hlen)
    as (listing & d & Hl & _ & Hd & Hid & _ & Hp & Hu).
  exists body, listing, d. repeat split; assumption.
Defined.

(** X13 at an agent type that is neither "search" nor "chat": the chat
    agent that exists is used, with constructors that would raise. *)
Lemma existing_agent_is_reused_witness :
  let g := Agents None (Some 2) in
  let request := {| chat_message := pystr "hi";
                    chat_agent_type := pystr "image" |} in
  select_agent g request = Some 2
  ∧ (chat_with_agent plain_runtime_text engine_no_constructors g request).1
    = g
  ∧ chat_with_agent plain_runtime_text engine_no_constructors g request
    = chat_with_agent plain_runtime_text engine_up g request
  ∧ chat_agent g = Some 2.
Proof.
  intros g request.
  assert (Hsel : select_agent g request = Some 2) by by vm_compute.
  split; [exact Hsel|].
  destruct (existing_agent_is_reused plain_runtime_text
              engine_no_constructors engine_up g request 2 Hsel
              eq_refl eq_refl) as (H1 & H2 & H3).
  split; [exact H1|]. split; [exact H2|].
  apply H3. by vm_compute.
Defined.

(** X14 at a first chat request on a fresh process. *)
Lemma agent_is_created_once_witness :
  let request := {| chat_message := pystr "hi";
                    chat_agent_type := pystr "chat" |} in
  let request' := {| chat_message := pystr "again";
                     chat_agent_type := pystr "chat" |} in
  let g1 := Agents None (Some 2) in
  (chat_with_agent plain_runtime_text (engine_failing (pystr "timed out"))
     (Agents None None) request).1 = g1
  ∧ select_agent g1 request' = Some 2
  ∧ (chat_with_agent plain_runtime_text engine_no_constructors g1
       request').1 = g1.
Proof.
  intros request request' g1.
  apply (agent_is_created_once plain_runtime_text
           (engine_failing (pystr "timed out")) engine_no_constructors
           (Agents None None) g1 request request' 2).
  - by vm_compute.
  - by vm_compute.
  - reflexivity.
Defined.


(** X20 at a first search on a fresh process, followed by a chat request
    of type "search". *)
Lemma search_agent_is_shared_witness :
  let request := {| search_query := pystr "wallpapers" |} in
  let chat_request := {| chat_message := pystr "hi";
                         chat_agent_type := pystr "search" |} in
  let g' :=
    (search_and_summarize plain_runtime_text search_engine_up
       (Agents None None) request).1 in
  g' = Agents (Some 1) None
  ∧ select_agent g' chat_request = Some 1
  ∧ init_agents engine_no_constructors g' chat_request = Ok g'.
Proof.
  intros request chat_request g'.
  destruct (search_agent_is_shared plain_runtime_text search_engine_up
              engine_no_constructors (Agents None None) request chat_request
              eq_refl) as (_ & _ & H & _).
  destruct (H (Agents (Some 1) None) 1 eq_refl) as (H1 & H2 & H3).
  subst g'. rewrite H1. repeat split; assumption.
Defined.

